(** * Hugging Face downloader: the download worker and its control surface

    A shallow embedding of [src/hf_model_downloader_gui.py]:
    [DownloadWorker.run], [stop], [pause], [resume], [resource_path] and the
    speed-limit check of [MainWindow.start_download], followed by the
    properties of the download session that the specification states.

    The worker runs in its own thread while the window calls [stop], [pause]
    and [resume] from another one.  The embedding makes the interleaving
    explicit: the calls wait in an inbox, grouped in batches, and the worker
    takes one batch in at each place where it reads the shared flags. *)

From Stdlib Require Import ZArith String Ascii List Bool Lia.
From Stdlib Require Import Floats.SpecFloat DecimalString.
From stdpp Require Import base tactics option list gmap strings.

Local Open Scope Z_scope.
Local Open Scope string_scope.
Local Open Scope list_scope.

(** ** Strings and paths *)

Module Str.

(** [s.split(sep)] for a one-character separator. *)
Fixpoint split (sep : ascii) (s : string) : list string :=
  match s with
  | EmptyString => [EmptyString]
  | String c s' =>
      if Ascii.eqb c sep then EmptyString :: split sep s'
      else match split sep s' with
           | h :: t => String c h :: t
           | [] => [String c EmptyString]
           end
  end.

(** [l[-1]] on a list that [split] returned (it is never empty). *)
Definition last_item (l : list string) : string := List.last l EmptyString.

(** [c.upper()] and [s.upper()] on ASCII text; bytes above 127 are kept. *)
Definition upper_ascii (c : ascii) : ascii :=
  let n := nat_of_ascii c in
  if (Nat.leb 97 n && Nat.leb n 122)%bool then ascii_of_nat (n - 32) else c.

Fixpoint upper (s : string) : string :=
  match s with
  | EmptyString => EmptyString
  | String c s' => String (upper_ascii c) (upper s')
  end.

(** [c in s] for a one-character [c]. *)
Fixpoint contains (c : ascii) (s : string) : bool :=
  match s with
  | EmptyString => false
  | String d s' => Ascii.eqb c d || contains c s'
  end.

(** The characters [str.strip()] removes, within ASCII. *)
Definition is_space (c : ascii) : bool :=
  let n := nat_of_ascii c in
  (Nat.leb 9 n && Nat.leb n 13)%bool || (Nat.leb 28 n && Nat.leb n 32)%bool.

Fixpoint lstrip (s : string) : string :=
  match s with
  | EmptyString => EmptyString
  | String c s' => if is_space c then lstrip s' else s
  end.

Fixpoint rstrip (s : string) : string :=
  match s with
  | EmptyString => EmptyString
  | String c s' =>
      match rstrip s' with
      | EmptyString => if is_space c then EmptyString else String c EmptyString
      | r => String c r
      end
  end.

Definition strip (s : string) : string := rstrip (lstrip s).

(** [bool(s)]: a string is true when it is not empty. *)
Definition truthy (s : string) : bool :=
  match s with EmptyString => false | _ => true end.

(** The line feed of [\n]. *)
Definition nl : string := String (ascii_of_nat 10) EmptyString.

(** [str(n)] for an integer. *)
Definition of_Z (n : Z) : string := NilZero.string_of_int (Z.to_int n).

End Str.

(** [os.path], in its POSIX flavour: the separator is [/], as in the paths of
    the specification. *)
Module os_path.

Definition sep : ascii := "/"%char.

Definition starts_with_sep (p : string) : bool :=
  match p with String c _ => Ascii.eqb c sep | EmptyString => false end.

Fixpoint ends_with_sep (p : string) : bool :=
  match p with
  | EmptyString => false
  | String c EmptyString => Ascii.eqb c sep
  | String _ p' => ends_with_sep p'
  end.

(** [os.path.join(a, b)] *)
Definition join (a b : string) : string :=
  if starts_with_sep b then b
  else if negb (Str.truthy a) || ends_with_sep a then a +:+ b
  else a +:+ "/" +:+ b.

(** [(p[:i], p[i:])] with [i = p.rfind('/') + 1]. *)
Fixpoint cut (p : string) : string * string :=
  match p with
  | EmptyString => (EmptyString, EmptyString)
  | String c p' =>
      let (h, t) := cut p' in
      if Str.truthy h then (String c h, t)
      else if Ascii.eqb c sep then (String c EmptyString, t)
      else (EmptyString, String c t)
  end.

Fixpoint all_sep (p : string) : bool :=
  match p with
  | EmptyString => true
  | String c p' => Ascii.eqb c sep && all_sep p'
  end.

(** [head.rstrip('/')] *)
Fixpoint rstrip_sep (p : string) : string :=
  match p with
  | EmptyString => EmptyString
  | String c p' =>
      match rstrip_sep p' with
      | EmptyString => if Ascii.eqb c sep then EmptyString else String c EmptyString
      | r => String c r
      end
  end.

(** [os.path.dirname(p)] *)
Definition dirname (p : string) : string :=
  let head := fst (cut p) in
  if Str.truthy head && negb (all_sep head) then rstrip_sep head else head.

(** [os.path.basename(p)] *)
Definition basename (p : string) : string := snd (cut p).

End os_path.

(** ** The filesystem

    The set of paths that exist.  [os.makedirs(name, exist_ok=True)] adds
    [name] and the directories above it; the host is taken to grant the
    request. *)

Module Fs.

Abbreviation t := (gset string).

(** [os.path.exists(p)] *)
Definition exists_ (fs : gset string) (p : string) : bool := bool_decide (p ∈ fs).

(** The directories above [p], nearest first. *)
Fixpoint parents (fuel : nat) (p : string) : list string :=
  match fuel with
  | O => []
  | S fuel' =>
      let h := os_path.dirname p in
      if negb (Str.truthy h) || String.eqb h p then [] else h :: parents fuel' h
  end.

Definition makedirs (fs : gset string) (name : string) : gset string :=
  fs ∪ {[ name ]} ∪ list_to_set (parents (String.length name) name).

End Fs.

(** ** Progress percentage

    [int((i + 1) / total * 100)] is computed on IEEE 754 doubles: [/] on two
    integers is the correctly rounded quotient, [* 100] rounds again, and
    [int] drops the fraction. *)

Module Float.

Definition prec : Z := 53.
Definition emax : Z := 1024.

(** An integer as the pair mantissa, exponent 0; the operations below
    round their result, so the quotient of two such pairs is the
    correctly rounded quotient of the integers. *)
Definition of_int (n : Z) : spec_float :=
  match n with
  | Z0 => S754_zero false
  | Zpos p => S754_finite false p 0
  | Zneg p => S754_finite true p 0
  end.

Definition truediv (a b : Z) : spec_float := SFdiv prec emax (of_int a) (of_int b).

Definition mul (x y : spec_float) : spec_float := SFmul prec emax x y.

(** [int(x)]: truncation towards zero (0 where Python raises). *)
Definition to_int (x : spec_float) : Z :=
  match x with
  | S754_finite s m e =>
      let v := match e with
               | Zneg k => Z.shiftr (Zpos m) (Zpos k)
               | _ => Z.shiftl (Zpos m) e
               end in
      if s then - v else v
  | _ => 0
  end.

End Float.

(** [percent = int((i + 1) / total * 100)] *)
Definition percent_of (i total : nat) : Z :=
  Float.to_int (Float.mul (Float.truediv (Z.of_nat i + 1) (Z.of_nat total)) (Float.of_int 100)).

(** ** Signals, external processes and the worker object *)

(** The signals of [DownloadWorker]. *)
Inductive Event :=
| Progress (percent : Z) (file : string)
| Finished
| Cancelled
| Paused
| Resumed
| Error (msg : string).

(** The calls the window makes on a running worker. *)
Inductive Command := Stop | Pause | Resume.

(** What happens in a session, in the order it happens: a call of the
    window takes effect, a signal is emitted, directories are made, a
    transfer is launched. *)
Inductive Item :=
| Call (c : Command)
| Emit (e : Event)
| Makedirs (path : string)
| Popen (cmd : list string).

(** A [subprocess.Popen] object.  [returncode] is what [poll()] returns;
    [exit_code] is the status the transfer ends with when it is left alone
    and [kill_code] the status it reports once terminated. *)
Record Process := {
  stdout : list string;
  stderr : string;
  returncode : option Z;
  exit_code : Z;
  kill_code : Z
}.

Module Proc.

Definition set_returncode (c : Z) (p : Process) : Process :=
  {| stdout := stdout p; stderr := stderr p; returncode := Some c;
     exit_code := exit_code p; kill_code := kill_code p |}.

Definition set_stdout (l : list string) (p : Process) : Process :=
  {| stdout := l; stderr := stderr p; returncode := returncode p;
     exit_code := exit_code p; kill_code := kill_code p |}.

(** [process.terminate()]: no effect on a process that has exited. *)
Definition terminate (p : Process) : Process :=
  match returncode p with
  | Some _ => p
  | None => set_returncode (kill_code p) p
  end.

(** [process.stdout.readline()]: the next line; [""] at end of file, which
    a live process reaches as it exits. *)
Definition readline (p : Process) : string * Process :=
  match returncode p with
  | Some _ => (EmptyString, p)
  | None =>
      match stdout p with
      | l :: ls => (l, set_stdout ls p)
      | [] => (EmptyString, set_returncode (exit_code p) p)
      end
  end.

(** [process.wait()] *)
Definition wait (p : Process) : Z * Process :=
  match returncode p with
  | Some c => (c, p)
  | None => (exit_code p, set_returncode (exit_code p) p)
  end.

End Proc.

(** How the transfer of one file goes on the host: the lines it prints, what
    it leaves on its error stream, the status it exits with when left alone
    and the status it reports when terminated. *)
Record Transfer := {
  output : list string;
  diagnostics : string;
  status : Z;
  killed_status : Z
}.

(** The object [subprocess.Popen] returns for it. *)
Definition started (t : Transfer) : Process :=
  {| stdout := output t; stderr := diagnostics t; returncode := None;
     exit_code := status t; kill_code := killed_status t |}.

(** What [subprocess.Popen(cmd, ...)] does for one file: a transfer starts,
    or an exception is raised. *)
Inductive Spawn :=
| Spawned (t : Transfer)
| SpawnError (msg : string).

(** The machine the session runs on: where the packaged resources are
    ([sys._MEIPASS], when the program is packaged), the absolute working
    directory, and what launching the transfer of the [i]-th file gives. *)
Record Host := {
  sys_MEIPASS : option string;
  abspath_dot : string;
  transfers : nat -> Spawn
}.

Definition resource_path (host : Host) (relative_path : string) : string :=
  let base_path :=
    match sys_MEIPASS host with
    | Some p => p
    | None => abspath_dot host
    end in
  os_path.join base_path relative_path.

(** The fields of a [DownloadWorker].  [pause_requested] is the flag of the
    [threading.Event]: [true] when set. *)
Record DownloadWorker := {
  repo_id : string;
  local_dir : string;
  selected_files : list string;
  speed_limit : option string;
  running : bool;
  is_paused : bool;
  pause_requested : bool;
  current_process : option Process
}.

(** [DownloadWorker.__init__] *)
Definition init (repo_id local_dir : string) (selected_files : list string)
    (speed_limit : option string) : DownloadWorker :=
  {| repo_id := repo_id; local_dir := local_dir;
     selected_files := selected_files; speed_limit := speed_limit;
     running := true; is_paused := false; pause_requested := true;
     current_process := None |}.

Definition set_flags (r p g : bool) (self : DownloadWorker) : DownloadWorker :=
  {| repo_id := repo_id self; local_dir := local_dir self;
     selected_files := selected_files self; speed_limit := speed_limit self;
     running := r; is_paused := p; pause_requested := g;
     current_process := current_process self |}.

Definition set_current_process (c : option Process) (self : DownloadWorker)
    : DownloadWorker :=
  {| repo_id := repo_id self; local_dir := local_dir self;
     selected_files := selected_files self; speed_limit := speed_limit self;
     running := running self; is_paused := is_paused self;
     pause_requested := pause_requested self;
     current_process := c |}.

(** ** The control surface: [stop], [pause], [resume]

    Each returns the new worker and the signals it emitted. *)

Definition stop (self : DownloadWorker) : DownloadWorker * list Event :=
  let self := set_flags false false true self in
  (set_current_process (Proc.terminate <$> current_process self) self, []).

Definition pause (self : DownloadWorker) : DownloadWorker * list Event :=
  if running self && negb (is_paused self)
  then (set_flags (running self) true false self, [Paused])
  else (self, []).

Definition resume (self : DownloadWorker) : DownloadWorker * list Event :=
  if running self && is_paused self
  then (set_flags (running self) false true self, [Resumed])
  else (self, []).

Definition call (c : Command) : DownloadWorker -> DownloadWorker * list Event :=
  match c with
  | Stop => stop
  | Pause => pause
  | Resume => resume
  end.

(** ** The session: worker, filesystem, pending calls, effects so far *)

Record World := {
  self : DownloadWorker;
  fs : gset string;
  inbox : list (list Command);
  log : list Item
}.

Definition with_self (s : DownloadWorker) (w : World) : World :=
  {| self := s; fs := fs w; inbox := inbox w; log := log w |}.

Definition with_inbox (i : list (list Command)) (w : World) : World :=
  {| self := self w; fs := fs w; inbox := i; log := log w |}.

Definition record (e : Item) (w : World) : World :=
  {| self := self w; fs := fs w; inbox := inbox w; log := log w ++ [e] |}.

Definition emit (e : Event) : World -> World := record (Emit e).

Definition makedirs (name : string) (w : World) : World :=
  record (Makedirs name)
    {| self := self w; fs := Fs.makedirs (fs w) name; inbox := inbox w; log := log w |}.

(** One call of the window reaches the worker. *)
Definition deliver1 (w : World) (c : Command) : World :=
  let (s, evs) := call c (self w) in
  {| self := s; fs := fs w; inbox := inbox w;
     log := log w ++ Call c :: (Emit <$> evs) |}.

Definition deliver (batch : list Command) (w : World) : World :=
  fold_left deliver1 batch w.

(** The worker is about to read its flags: the calls made since the last
    read take effect. *)
Definition sync (w : World) : World :=
  match inbox w with
  | [] => w
  | batch :: rest => deliver batch (with_inbox rest w)
  end.

(** [self.pause_requested.wait()]: returns at once when the flag is set,
    otherwise sleeps until a call sets it.  [false]: no call ever does. *)
Fixpoint wait_from (pending : list (list Command)) (w : World) : bool * World :=
  if pause_requested (self w) then (true, with_inbox pending w)
  else match pending with
       | [] => (false, with_inbox [] w)
       | batch :: rest => wait_from rest (deliver batch w)
       end.

Definition pause_requested_wait (w : World) : bool * World :=
  wait_from (inbox w) w.

(** The local [process] is the object [self.current_process] holds. *)
Definition process_terminate (w : World) : World :=
  with_self (set_current_process (Proc.terminate <$> current_process (self w)) (self w)) w.

Definition process_readline (w : World) : string * World :=
  match current_process (self w) with
  | Some p =>
      let (line, p') := Proc.readline p in
      (line, with_self (set_current_process (Some p') (self w)) w)
  | None => (EmptyString, w)
  end.

Definition process_poll (w : World) : option Z :=
  match current_process (self w) with
  | Some p => returncode p
  | None => None
  end.

Definition process_wait (w : World) : Z * World :=
  match current_process (self w) with
  | Some p =>
      let (c, p') := Proc.wait p in
      (c, with_self (set_current_process (Some p') (self w)) w)
  | None => (0, w)
  end.

Definition process_stderr_read (w : World) : string :=
  match current_process (self w) with
  | Some p => stderr p
  | None => EmptyString
  end.

(** ** [DownloadWorker.run] *)

(** How a block of statements ends. *)
Inductive Flow :=
| Normal                 (* falls through to the next statement *)
| Returned               (* [return]: the run is over *)
| Raised (e : string)    (* an exception leaves the block *)
| Parked                 (* asleep in [wait()] for ever *)
| Spinning.              (* [while True] goes round without end *)

(** The [while True] loop that watches the transfer.  Every round that does
    not leave the loop takes a batch of calls or a line of output, unless
    nothing is left to change; [fuel] counts the rounds. *)
Fixpoint supervise (fuel : nat) (w : World) : Flow * World :=
  match fuel with
  | O => (Spinning, w)
  | S fuel' =>
      let w := sync w in
      if negb (running (self w)) then (Normal, process_terminate w)
      else if is_paused (self w) && running (self w) then
        let (woken, w) := pause_requested_wait w in
        if negb woken then (Parked, w)
        else if negb (running (self w))
        then (Returned, emit Cancelled (process_terminate w))
        else supervise fuel' w
      else
        let (output, w) := process_readline w in
        if String.eqb output EmptyString && bool_decide (is_Some (process_poll w))
        then (Normal, w)
        else supervise fuel' w
  end.

Definition rounds (w : World) : nat :=
  S (length (inbox w)
     + match current_process (self w) with
       | Some p => length (stdout p)
       | None => O
       end).

(** The command line of one transfer. *)
Definition aria2c_cmd (aria2c_path full_path url : string)
    (speed_limit : option string) : list string :=
  [ aria2c_path; "-x"; "16"; "-s"; "16"; "-j"; "5"; "--continue=true";
    "--dir"; os_path.dirname full_path;
    "--out"; os_path.basename full_path;
    url ]
  ++ match speed_limit with
     | Some s => if Str.truthy s then ["--max-download-limit"; s] else []
     | None => []
     end.

Definition url_of (repo_id file_path : string) : string :=
  "https://huggingface.co/" +:+ repo_id +:+ "/resolve/main/" +:+ file_path.

(** The texts of the three error messages. *)
Definition missing_text (aria2c_path : string) : string :=
  "未找到 aria2c.exe: " +:+ aria2c_path.

Definition failure_text (return_code : Z) (stderr_output : string) : string :=
  "aria2c 下载失败 (退出码 " +:+ Str.of_Z return_code +:+ "): " +:+ stderr_output.

Definition error_text (file_path e : string) : string :=
  "下载失败: " +:+ file_path +:+ Str.nl +:+ "错误: " +:+ e.

(** The body of [try:] for the [i]-th file. *)
Definition transfer (host : Host) (aria2c_path final_dir : string)
    (total i : nat) (file_path : string) (w : World) : Flow * World :=
  let url := url_of (repo_id (self w)) file_path in
  let full_path := os_path.join final_dir file_path in
  let w := makedirs (os_path.dirname full_path) w in
  let cmd := aria2c_cmd aria2c_path full_path url (speed_limit (self w)) in
  let w := record (Popen cmd) w in
  match transfers host i with
  | SpawnError msg => (Raised msg, w)
  | Spawned t =>
      let process := started t in
      let w := with_self (set_current_process (Some process) (self w)) w in
      match supervise (rounds w) w with
      | (Normal, w) =>
          let (return_code, w) := process_wait w in
          let w := sync w in
          if negb (Z.eqb return_code 0) && running (self w) then
            let stderr_output := process_stderr_read w in
            (Raised (failure_text return_code stderr_output), w)
          else
            let percent := percent_of i total in
            (Normal, emit (Progress percent file_path) w)
      | other => other
      end
  end.

(** One round of [for i, file_path in enumerate(self.selected_files)]. *)
Definition download_file (host : Host) (aria2c_path final_dir : string)
    (total i : nat) (file_path : string) (w : World) : Flow * World :=
  let w := sync w in
  if negb (running (self w)) then (Returned, emit Cancelled w)
  else
    match transfer host aria2c_path final_dir total i file_path w with
    | (Raised e, w) =>
        let w := sync w in
        if running (self w)
        then (Returned, emit (Error (error_text file_path e)) w)
        else (Normal, w)
    | other => other
    end.

Fixpoint download_files (host : Host) (aria2c_path final_dir : string)
    (total i : nat) (files : list string) (w : World) : Flow * World :=
  match files with
  | [] => (Normal, w)
  | file_path :: rest =>
      match download_file host aria2c_path final_dir total i file_path w with
      | (Normal, w) => download_files host aria2c_path final_dir total (S i) rest w
      | other => other
      end
  end.

Definition model_name_of (repo_id : string) : string :=
  Str.last_item (Str.split "/" repo_id).

Definition run (host : Host) (w : World) : Flow * World :=
  let total := length (selected_files (self w)) in
  if Nat.eqb total 0 then (Returned, emit Finished w)
  else
    let model_name := model_name_of (repo_id (self w)) in
    let final_dir := os_path.join (local_dir (self w)) model_name in
    let w := makedirs final_dir w in
    let aria2c_path := resource_path host "aria2c.exe" in
    if negb (Fs.exists_ (fs w) aria2c_path)
    then (Returned, emit (Error (missing_text aria2c_path)) w)
    else
      match download_files host aria2c_path final_dir total 0
              (selected_files (self w)) w with
      | (Normal, w) => (Returned, emit Finished w)
      | other => other
      end.

(** ** [MainWindow.start_download]: what the form must hold before a worker
    is created *)

(** The widgets [start_download] reads: the two text fields, the rows of the
    file list with their check boxes, the speed-limit box and its field. *)
Record Form := {
  repo_input : string;
  dir_input : string;
  file_list_widget : list (string * bool);
  speed_checkbox : bool;
  speed_input : string
}.

(** [any(c in speed_limit.upper() for c in ['K', 'M', 'G'])] *)
Definition names_a_unit (speed_limit : string) : bool :=
  existsb (fun c => Str.contains c (Str.upper speed_limit))
    ["K"%char; "M"%char; "G"%char].

(** The speed-limit lines: [None] when the warning box is shown, otherwise
    the value the worker is created with. *)
Definition read_speed_limit (checked : bool) (text : string)
    : option (option string) :=
  if checked then
    let speed_limit := Str.strip text in
    if Str.truthy speed_limit && negb (names_a_unit speed_limit)
    then None
    else Some (Some speed_limit)
  else Some None.

(** The message box shown, or the worker that is created and started. *)
Definition start_download (form : Form) : string + DownloadWorker :=
  let repo_id := Str.strip (repo_input form) in
  let local_dir := Str.strip (dir_input form) in
  if negb (Str.truthy repo_id) || negb (Str.truthy local_dir)
  then inl "请填写仓库ID和本地路径！"
  else
    let selected_files := fst <$> List.filter snd (file_list_widget form) in
    match selected_files with
    | [] => inl "没有选择任何文件！"
    | _ =>
        match read_speed_limit (speed_checkbox form) (speed_input form) with
        | None => inl "限速格式错误！请使用如 500K, 2M"
        | Some speed_limit => inr (init repo_id local_dir selected_files speed_limit)
        end
    end.

(** The pattern the specification gives for a speed limit:
    [<positive integer><K|M|G>], the unit in either case. *)
Module SpecPattern.





End SpecPattern.

(** ** Reading a session's trace *)

Definition events (l : list Item) : list Event :=
  omap (fun x => match x with Emit e => Some e | _ => None end) l.

Definition is_terminal (e : Event) : bool :=
  match e with
  | Finished | Cancelled | Error _ => true
  | _ => false
  end.


(** The [Progress] events, as pairs of percentage and file. *)
Definition progresses (l : list Item) : list (Z * string) :=
  omap (fun x => match x with Emit (Progress p f) => Some (p, f) | _ => None end) l.

(** The command lines of the transfers launched. *)
Definition launches (l : list Item) : list (list string) :=
  omap (fun x => match x with Popen cmd => Some cmd | _ => None end) l.

(** The directories asked of [os.makedirs]. *)
Definition made (l : list Item) : list string :=
  omap (fun x => match x with Makedirs p => Some p | _ => None end) l.

(** What the window does and hears of its own calls: the calls, and the
    [Paused] and [Resumed] signals they emit. *)
Definition of_window (x : Item) : bool :=
  match x with
  | Call _ | Emit Paused | Emit Resumed => true
  | _ => false
  end.

(** The worker's side of the trace. *)
Definition own (l : list Item) : list Item :=
  List.filter (fun x => negb (of_window x)) l.

(** A session as [start_download] leaves it: a new worker, the calls the
    window will make, nothing in the trace. *)
Definition session (worker : DownloadWorker) (disk : gset string)
    (calls : list (list Command)) : World :=
  {| self := worker; fs := disk; inbox := calls; log := [] |}.

(** The flag and the [threading.Event] agree. *)
Definition gate_ok (s : DownloadWorker) : Prop :=
  pause_requested s = negb (is_paused s).

(** The request a worker was created for. *)
Definition request (s : DownloadWorker) : string * string * list string * option string :=
  (repo_id s, local_dir s, selected_files s, speed_limit s).

(** ** How a session evolves *)

(** The flags as the three methods keep them: the [threading.Event] is set
    exactly when the worker is not paused, and only a running worker is
    paused. *)
Definition flags_ok (s : DownloadWorker) : Prop :=
  pause_requested s = negb (is_paused s) /\
  (is_paused s = true -> running s = true).

(** A session whose worker, if still running, has seen no call of [stop]. *)
Definition sound (w : World) : Prop :=
  running (self w) = true -> Call Stop ∉ log w.

(** A running session on which [stop] will not be called. *)
Definition calm (w : World) : Prop :=
  running (self w) = true /\ Stop ∉ concat (inbox w).

(** A session that is not paused and on which [pause] will not be called. *)
Definition unpaused (w : World) : Prop :=
  is_paused (self w) = false /\ Pause ∉ concat (inbox w).

(** [w'] is a later state of the session [w]. *)
Record evolves (w w' : World) : Prop := {
  ev_request : request (self w') = request (self w);
  ev_fs : fs w ⊆ fs w';
  ev_log : log w `prefix_of` log w';
  ev_inbox : (length (inbox w') <= length (inbox w))%nat;
  ev_running : running (self w) = false -> running (self w') = false;
  ev_flags : flags_ok (self w) -> flags_ok (self w');
  ev_sound : sound w -> sound w';
  ev_calm : calm w -> calm w';
  ev_unpaused : unpaused w -> unpaused w'
}.

(** What calls of the window may do to the transfer in flight: nothing, or
    terminate it, and nothing as long as the worker is running. *)
Record spares (w w' : World) : Prop := {
  sp_proc : current_process (self w') = current_process (self w) \/
            current_process (self w') = Proc.terminate <$> current_process (self w);
  sp_alive : running (self w') = true ->
             current_process (self w') = current_process (self w) /\
             running (self w) = true
}.

(** [w'] is [w] after calls of the window took effect, and nothing else. *)
Record heard (w w' : World) : Prop := {
  hd_evolves : evolves w w';
  hd_own : own (log w') = own (log w);
  hd_fs : fs w' = fs w;
  hd_spares : spares w w'
}.

Lemma evolves_refl w : evolves w w.
Proof. split; auto. Qed.

Lemma evolves_trans w1 w2 w3 : evolves w1 w2 -> evolves w2 w3 -> evolves w1 w3.
Proof.
  intros [] []; split; auto.
  - congruence.
  - set_solver.
  - etrans; eauto.
  - lia.
Qed.

Lemma terminate_idem p : Proc.terminate (Proc.terminate p) = Proc.terminate p.
Proof. unfold Proc.terminate. destruct p as [? ? [c|] ? ?]; reflexivity. Qed.

Lemma spares_refl w : spares w w.
Proof. split; auto. Qed.

Lemma spares_trans w1 w2 w3 : spares w1 w2 -> spares w2 w3 -> spares w1 w3.
Proof.
  intros [P1 A1] [P2 A2]; split.
  - destruct P2 as [-> | ->]; [exact P1|].
    destruct P1 as [-> | ->]; [by right|].
    right. destruct (current_process (self w1)); simpl; [|done].
    by rewrite terminate_idem.
  - intros R3. destruct (A2 R3) as [-> R2]. exact (A1 R2).
Qed.

Lemma heard_refl w : heard w w.
Proof. split; auto using evolves_refl, spares_refl. Qed.

Lemma heard_trans w1 w2 w3 : heard w1 w2 -> heard w2 w3 -> heard w1 w3.
Proof.
  intros [E1 O1 F1 S1] [E2 O2 F2 S2]; split.
  - eauto using evolves_trans.
  - congruence.
  - congruence.
  - eauto using spares_trans.
Qed.

Lemma own_app l1 l2 : own (l1 ++ l2) = own l1 ++ own l2.
Proof. apply List.filter_app. Qed.

Lemma own_window l : forallb of_window l = true -> own l = [].
Proof.
  induction l as [|x l IH]; simpl; [done|].
  intros [Hx Hl]%andb_true_iff. rewrite Hx. simpl. auto.
Qed.

(** *** The three methods *)

Lemma call_request c s : request (fst (call c s)) = request s.
Proof.
  destruct c; simpl; unfold stop, pause, resume;
    repeat case_match; reflexivity.
Qed.

Lemma call_keeps_flags_ok c s : flags_ok s -> flags_ok (fst (call c s)).
Proof.
  unfold flags_ok. intros [Hg Hp].
  destruct c; simpl; unfold stop, pause, resume; simpl.
  - split; [done|]. discriminate.
  - destruct (running s) eqn:R, (is_paused s) eqn:P; simpl; rewrite ?R, ?P; auto.
  - destruct (running s) eqn:R, (is_paused s) eqn:P; simpl; rewrite ?R, ?P; auto.
Qed.

Lemma call_running c s :
  running (fst (call c s)) = match c with Stop => false | _ => running s end.
Proof.
  destruct c; simpl; unfold stop, pause, resume; simpl; try done;
    repeat case_match; reflexivity.
Qed.

Lemma call_process c s :
  current_process (fst (call c s)) =
  match c with
  | Stop => Proc.terminate <$> current_process s
  | _ => current_process s
  end.
Proof.
  destruct c; simpl; unfold stop, pause, resume; simpl; try done;
    repeat case_match; reflexivity.
Qed.

Lemma call_is_paused c s :
  c <> Pause -> is_paused s = false -> is_paused (fst (call c s)) = false.
Proof.
  intros Hc Hp. destruct c; simpl; unfold stop, pause, resume; simpl; try done.
  rewrite Hp. by rewrite andb_false_r.
Qed.

Lemma call_events c s : forallb of_window (Emit <$> snd (call c s)) = true.
Proof.
  destruct c; simpl; unfold stop, pause, resume; simpl; try done;
    repeat case_match; reflexivity.
Qed.

(** What a batch [b] of calls does to a session, the inbox left aside. *)
Record told (b : list Command) (w w' : World) : Prop := {
  td_request : request (self w') = request (self w);
  td_fs : fs w' = fs w;
  td_inbox : inbox w' = inbox w;
  td_log : log w `prefix_of` log w';
  td_own : own (log w') = own (log w);
  td_running : running (self w) = false -> running (self w') = false;
  td_flags : flags_ok (self w) -> flags_ok (self w');
  td_sound : sound w -> sound w';
  td_unpaused : Pause ∉ b -> is_paused (self w) = false -> is_paused (self w') = false;
  td_spares : spares w w';
  td_calm : Stop ∉ b -> running (self w') = running (self w)
}.

Lemma deliver1_told w c : told [c] w (deliver1 w c).
Proof.
  unfold deliver1.
  pose proof (call_request c (self w)) as Hq.
  pose proof (call_keeps_flags_ok c (self w)) as Hf.
  pose proof (call_running c (self w)) as Hr.
  pose proof (call_process c (self w)) as Hp.
  pose proof (call_events c (self w)) as He.
  pose proof (call_is_paused c (self w)) as Hz.
  destruct (call c (self w)) as [s evs]; simpl in *.
  split; [..|split|]; simpl; auto.
  - by apply prefix_app_r.
  - rewrite own_app. simpl. rewrite (own_window _ He). by rewrite app_nil_r.
  - intros R. rewrite Hr. by destruct c.
  - intros I R. simpl in *.
    rewrite Hr in R. destruct c; [done|..];
      (rewrite elem_of_app, elem_of_cons; intros [?|[?|Hin]]; [by apply I|done|]);
      apply list_elem_of_fmap in Hin as (e & ? & _); done.
  - intros Hn. apply Hz. by intros ->; destruct Hn; apply list_elem_of_singleton.
  - rewrite Hp. destruct c; auto.
  - intros R. rewrite Hr in R. rewrite Hp. by destruct c.
  - intros Hn. rewrite Hr. destruct c; [|done..].
    by destruct Hn; apply list_elem_of_singleton.
Qed.

Lemma deliver_told b w : told b w (deliver b w).
Proof.
  unfold deliver. revert w. induction b as [|c b IH]; intros w; simpl.
  - split; auto using spares_refl.
  - destruct (deliver1_told w c) as [q1 f1 i1 l1 o1 r1 g1 s1 u1 p1 c1].
    destruct (IH (deliver1 w c)) as [q2 f2 i2 l2 o2 r2 g2 s2 u2 p2 c2].
    split; try congruence; auto.
    + etrans; eauto.
    + intros [Hc Hb]%not_elem_of_cons Hp. apply u2; [done|]. apply u1; [|done].
      by intros ?%list_elem_of_singleton.
    + eauto using spares_trans.
    + intros [Hc Hb]%not_elem_of_cons. rewrite c2, c1; [done| |done].
      by intros ?%list_elem_of_singleton.
Qed.

(** *** Taking calls in: [sync] and [wait()] *)

Lemma with_inbox_same w : with_inbox (inbox w) w = w.
Proof. by destruct w. Qed.

Lemma deliver_with_inbox b x w :
  deliver b (with_inbox x w) = with_inbox x (deliver b w).
Proof.
  unfold deliver. revert w. induction b as [|c b IH]; intros w; simpl; [done|].
  rewrite <- IH. f_equal. unfold deliver1, with_inbox. simpl.
  by destruct (call c (self w)).
Qed.

Lemma sync_heard w : heard w (sync w).
Proof.
  unfold sync. destruct (inbox w) as [|b rest] eqn:Hi; [apply heard_refl|].
  destruct (deliver_told b (with_inbox rest w)) as [q f i l o r g s u p c].
  simpl in *. split; [split|..]; auto.
  - by rewrite f.
  - rewrite i, Hi. simpl. lia.
  - unfold calm. rewrite Hi, i. simpl.
    intros [R N]. rewrite not_elem_of_app in N. destruct N as [Nb Nr].
    by rewrite c.
  - unfold unpaused. rewrite Hi, i. simpl.
    intros [R N]. rewrite not_elem_of_app in N. destruct N as [Nb Nr]. auto.
  - destruct p; split; auto.
Qed.

Lemma sync_inbox w :
  inbox w <> [] -> (length (inbox (sync w)) < length (inbox w))%nat.
Proof.
  unfold sync. destruct (inbox w) as [|b rest] eqn:Hi; [done|]. intros _.
  rewrite (td_inbox _ _ _ (deliver_told b (with_inbox rest w))). simpl. lia.
Qed.

Lemma wait_from_any_inbox pending x w :
  wait_from pending (with_inbox x w) = wait_from pending w.
Proof.
  revert w. induction pending as [|b rest IH]; intros w; simpl.
  - done.
  - destruct (pause_requested (self w)); [done|].
    by rewrite deliver_with_inbox, IH.
Qed.

Lemma wait_unfold w :
  pause_requested_wait w =
  if pause_requested (self w) then (true, w)
  else match inbox w with
       | [] => (false, w)
       | _ => pause_requested_wait (sync w)
       end.
Proof.
  unfold pause_requested_wait, sync.
  destruct (inbox w) as [|b rest] eqn:Hi; simpl.
  - rewrite <- Hi, with_inbox_same. by destruct (pause_requested (self w)).
  - destruct (pause_requested (self w)) eqn:G.
    + by rewrite <- Hi, with_inbox_same.
    + rewrite (td_inbox _ _ _ (deliver_told b (with_inbox rest w))). simpl.
      by rewrite deliver_with_inbox, wait_from_any_inbox.
Qed.

(** [wait()] returns with the flag set, after at least one batch of calls
    if the flag was clear; or it never returns, the inbox being empty. *)
Lemma wait_spec w woken w' :
  pause_requested_wait w = (woken, w') ->
  heard w w' /\
  if woken
  then pause_requested (self w') = true /\
       (pause_requested (self w) = false ->
        (length (inbox w') < length (inbox w))%nat)
  else pause_requested (self w') = false /\ inbox w' = [].
Proof.
  remember (length (inbox w)) as n eqn:Hn. revert w Hn.
  induction n as [|n IH]; intros w Hn; rewrite wait_unfold;
    destruct (pause_requested (self w)) eqn:G;
    try (intros [= <- <-]; split; [apply heard_refl|]; split; [done|]; done).
  - destruct (inbox w) eqn:Hi; [|done]. intros [= <- <-].
    split; [apply heard_refl|]. done.
  - destruct (inbox w) as [|b rest] eqn:Hi; [done|]. intros Hw.
    pose proof (sync_heard w) as Hs.
    assert (Hl : (length (inbox (sync w)) < length (inbox w))%nat)
      by (apply sync_inbox; congruence).
    destruct (IH (sync w)) as [Hh Hr]; [|exact Hw|].
    { unfold sync in *. rewrite Hi in *.
      rewrite (td_inbox _ _ _ (deliver_told b (with_inbox rest w))). simpl.
      simpl in Hn. lia. }
    split; [eauto using heard_trans|].
    destruct woken; [|done]. destruct Hr as [? Hr]. split; [done|].
    intros _. pose proof (ev_inbox _ _ (hd_evolves _ _ Hh)).
    rewrite Hi in Hl. simpl in *. lia.
Qed.

(** *** The worker's own steps *)

(** [w'] differs from [w] in the process object only. *)
Record same_but_process (w w' : World) : Prop := {
  sb_log : log w' = log w;
  sb_fs : fs w' = fs w;
  sb_inbox : inbox w' = inbox w;
  sb_request : request (self w') = request (self w);
  sb_running : running (self w') = running (self w);
  sb_is_paused : is_paused (self w') = is_paused (self w);
  sb_gate : pause_requested (self w') = pause_requested (self w)
}.

Lemma same_but_process_evolves w w' : same_but_process w w' -> evolves w w'.
Proof.
  intros [Hl Hfs Hi Hq Hr Hp Hg].
  split; unfold flags_ok, sound, calm, unpaused;
    rewrite ?Hl, ?Hfs, ?Hi, ?Hr, ?Hp, ?Hg; auto.
Qed.

Lemma set_process_same c w :
  same_but_process w (with_self (set_current_process c (self w)) w).
Proof. by split. Qed.

Lemma process_terminate_same w : same_but_process w (process_terminate w).
Proof. apply set_process_same. Qed.

Lemma process_readline_same w : same_but_process w (snd (process_readline w)).
Proof.
  unfold process_readline. destruct (current_process (self w)) as [p|]; [|by split].
  destruct (Proc.readline p). apply set_process_same.
Qed.

Lemma process_wait_same w : same_but_process w (snd (process_wait w)).
Proof.
  unfold process_wait. destruct (current_process (self w)) as [p|]; [|by split].
  destruct (Proc.wait p). apply set_process_same.
Qed.

Lemma record_evolves x w : x <> Call Stop -> evolves w (record x w).
Proof.
  intros Hx. split; simpl; auto.
  - by apply prefix_app_r.
  - unfold sound. simpl. intros I R.
    rewrite elem_of_app, list_elem_of_singleton. intros [?|?]; [by apply I|congruence].
Qed.

Lemma emit_evolves e w : evolves w (emit e w).
Proof. by apply record_evolves. Qed.

Lemma makedirs_made disk name : name ∈ Fs.makedirs disk name.
Proof.
  unfold Fs.makedirs. apply elem_of_union_l, elem_of_union_r.
  by apply elem_of_singleton.
Qed.

Lemma makedirs_keeps disk name : disk ⊆ Fs.makedirs disk name.
Proof.
  unfold Fs.makedirs. intros x Hx. by apply elem_of_union_l, elem_of_union_l.
Qed.

Lemma makedirs_evolves name w : evolves w (makedirs name w).
Proof.
  unfold makedirs.
  eapply evolves_trans; [|by apply record_evolves].
  split; simpl; auto. apply makedirs_keeps.
Qed.

Lemma terminate_exited p : is_Some (returncode (Proc.terminate p)).
Proof. unfold Proc.terminate. destruct p as [? ? [c|] ? ?]; simpl; eauto. Qed.

Lemma terminate_stderr p : stderr (Proc.terminate p) = stderr p.
Proof. unfold Proc.terminate. by destruct p as [? ? [c|] ? ?]. Qed.

(** The loop that watches a transfer [p] just launched or still alive: it
    leaves by [break] with the transfer over (of itself, if the worker is
    still running), by [return] after [Cancelled], or it never leaves,
    asleep in [wait()]; it does not spin. *)
Lemma supervise_spec fuel : forall w p flow w',
  flags_ok (self w) ->
  current_process (self w) = Some p -> returncode p = None ->
  (length (inbox w) + length (stdout p) < fuel)%nat ->
  supervise fuel w = (flow, w') ->
  evolves w w' /\ fs w' = fs w /\
  match flow with
  | Normal =>
      own (log w') = own (log w) /\
      exists p' c, current_process (self w') = Some p' /\
                   stderr p' = stderr p /\ returncode p' = Some c /\
                   (running (self w') = true -> c = exit_code p)
  | Returned =>
      own (log w') = own (log w) ++ [Emit Cancelled] /\
      running (self w') = false
  | Parked =>
      own (log w') = own (log w) /\ running (self w') = true /\
      is_paused (self w') = true
  | _ => False
  end.
Proof.
  induction fuel as [|fuel IH]; intros w p flow w' Hf Hp Hrc Hfuel; [lia|].
  simpl.
  destruct (sync_heard w) as [E1 O1 F1 [P1 A1]].
  pose proof (ev_flags _ _ E1 Hf) as Hf1.
  pose proof (ev_inbox _ _ E1) as Hi1.
  set (w1 := sync w) in *.
  destruct (running (self w1)) eqn:R1; simpl.
  - (* the worker is running: the transfer is untouched *)
    destruct (A1 eq_refl) as [Hp1 _]. rewrite Hp in Hp1.
    destruct (is_paused (self w1)) eqn:Pz1; simpl.
    + (* paused: wait *)
      destruct (pause_requested_wait w1) as [woken w2] eqn:Hw.
      destruct (wait_spec _ _ _ Hw) as [[E2 O2 F2 [P2 A2]] Hk].
      pose proof (ev_flags _ _ E2 Hf1) as Hf2.
      destruct woken; simpl.
      * destruct Hk as [G2 Hlt].
        assert (G1 : pause_requested (self w1) = false)
          by (destruct Hf1 as [-> _]; by rewrite Pz1).
        specialize (Hlt G1).
        destruct (running (self w2)) eqn:R2; simpl.
        -- intros Hs. destruct (A2 eq_refl) as [Hp2 _]. rewrite Hp1 in Hp2.
           destruct (IH w2 p flow w' Hf2 Hp2 Hrc ltac:(lia) Hs) as (E3 & F3 & H3).
           split; [eauto using evolves_trans|]. split; [congruence|].
           destruct flow; try done; rewrite O1, O2 in *; exact H3.
        -- intros [= <- <-]. split; [|split]; simpl.
           ++ eapply evolves_trans; [exact E1|]. eapply evolves_trans; [exact E2|].
              eapply evolves_trans; [|apply emit_evolves].
              apply same_but_process_evolves, process_terminate_same.
           ++ congruence.
           ++ rewrite own_app. simpl. by rewrite O2, O1.
      * intros [= <- <-]. destruct Hk as [G2 _].
        split; [eauto using evolves_trans|]. split; [congruence|].
        split; [congruence|].
        destruct Hf2 as [Hg Hr].
        assert (is_paused (self w2) = true)
          by (rewrite G2 in Hg; by destruct (is_paused (self w2))).
        auto.
    + (* not paused: read a line *)
      unfold process_readline, process_poll. rewrite Hp1. unfold Proc.readline.
      rewrite Hrc. destruct (stdout p) as [|l ls] eqn:Hout; simpl.
      * intros [= <- <-]. split; [|split; [|split]]; simpl; auto.
        -- eapply evolves_trans; [exact E1|].
           apply same_but_process_evolves, set_process_same.
        -- eexists _, _. split; [reflexivity|]. simpl. auto.
      * rewrite Hrc. simpl. rewrite andb_false_r.
        set (w2 := with_self
                     (set_current_process (Some (Proc.set_stdout ls p)) (self w1)) w1).
        intros Hs.
        destruct (IH w2 (Proc.set_stdout ls p) flow w') as (E3 & F3 & H3); auto.
        { simpl. simpl in Hfuel. lia. }
        split.
        { eapply evolves_trans; [exact E1|]. eapply evolves_trans; [|exact E3].
          apply same_but_process_evolves, set_process_same. }
        split; [simpl in *; congruence|].
        destruct flow; try done; simpl in *; rewrite O1 in *; exact H3.
  - (* stopped: terminate and break *)
    intros [= <- <-]. split; [|split; [|split]]; simpl; auto.
    + eapply evolves_trans; [exact E1|].
      apply same_but_process_evolves, process_terminate_same.
    + destruct P1 as [-> | ->]; rewrite Hp; simpl.
      * destruct (terminate_exited p) as [c Hc].
        eexists _, c. split; [reflexivity|]. rewrite terminate_stderr.
        repeat split; auto. rewrite R1. discriminate.
      * rewrite terminate_idem. destruct (terminate_exited p) as [c Hc].
        eexists _, c. split; [reflexivity|]. rewrite terminate_stderr.
        repeat split; auto. rewrite R1. discriminate.
Qed.

(** *** One file *)

(** The directory made and the command line launched for [file_path]. *)
Definition dir_of (final_dir file_path : string) : string :=
  os_path.dirname (os_path.join final_dir file_path).

Definition launch_of (aria2c_path final_dir : string) (s : DownloadWorker)
    (file_path : string) : list string :=
  aria2c_cmd aria2c_path (os_path.join final_dir file_path)
    (url_of (repo_id s) file_path) (speed_limit s).

Lemma grown w1 w2 X :
  evolves w1 w2 -> own (log w2) = own (log w1) ++ X ->
  exists rest, log w2 = log w1 ++ rest /\ own rest = X.
Proof.
  intros E O. destruct (ev_log _ _ E) as [rest Hr]. exists rest. split; [done|].
  rewrite Hr, own_app in O. by apply app_inv_head in O.
Qed.

Lemma heard_running_back w w' :
  spares w w' -> running (self w') = true -> running (self w) = true.
Proof. intros [_ A] R. by destruct (A R). Qed.

Lemma transfer_spec host aria2c_path final_dir total i file_path w flow w' :
  flags_ok (self w) -> running (self w) = true ->
  transfer host aria2c_path final_dir total i file_path w = (flow, w') ->
  evolves w w' /\
  fs w' = Fs.makedirs (fs w) (dir_of final_dir file_path) /\
  exists rest,
    log w' = log w ++ Makedirs (dir_of final_dir file_path)
                   :: Popen (launch_of aria2c_path final_dir (self w) file_path)
                   :: rest /\
    match flow with
    | Normal =>
        own rest = [Emit (Progress (percent_of i total) file_path)] /\
        (running (self w') = true ->
         exists t, transfers host i = Spawned t /\ status t = 0)
    | Returned => own rest = [Emit Cancelled] /\ running (self w') = false
    | Raised e =>
        own rest = [] /\ running (self w') = true /\
        (transfers host i = SpawnError e \/
         exists t, transfers host i = Spawned t /\ status t <> 0 /\
                   e = failure_text (status t) (diagnostics t))
    | Parked =>
        own rest = [] /\ running (self w') = true /\ is_paused (self w') = true
    | Spinning => False
    end.
Proof.
  intros Hf R. unfold transfer.
  set (d := os_path.dirname (os_path.join final_dir file_path)).
  set (cmd := aria2c_cmd _ _ _ _).
  set (wb := record (Popen cmd) (makedirs d w)).
  assert (Eb : evolves w wb).
  { eapply evolves_trans; [apply makedirs_evolves|by apply record_evolves]. }
  assert (Lb : log wb = log w ++ [Makedirs d; Popen cmd]).
  { subst wb. unfold makedirs, record. simpl. by rewrite <- app_assoc. }
  assert (Fb : fs wb = Fs.makedirs (fs w) d) by done.
  assert (Sb : self wb = self w) by done.
  assert (finish : forall w2 X (P : Prop),
            evolves wb w2 -> fs w2 = fs wb -> own (log w2) = own (log wb) ++ X -> P ->
            evolves w w2 /\ fs w2 = Fs.makedirs (fs w) d /\
            exists rest, log w2 = log w ++ Makedirs d :: Popen cmd :: rest /\
                         own rest = X /\ P).
  { intros w2 X P E F O HP. split; [eauto using evolves_trans|]. split; [congruence|].
    destruct (grown _ _ _ E O) as (rest & Hl & Ho). exists rest.
    rewrite Hl, Lb, <- app_assoc. done. }
  destruct (transfers host i) as [t|msg] eqn:Ht.
  - set (wc := with_self _ wb).
    assert (Ec : evolves wb wc) by apply same_but_process_evolves, set_process_same.
    destruct (supervise (rounds wc) wc) as [f wd] eqn:Hs.
    assert (Hfc : flags_ok (self wc)) by (apply (ev_flags _ _ Ec); by rewrite Sb).
    assert (Hfu : (length (inbox wc) + length (stdout (started t)) < rounds wc)%nat)
      by (unfold rounds; simpl; lia).
    destruct (supervise_spec (rounds wc) wc (started t) f wd Hfc eq_refl eq_refl Hfu Hs)
      as (Ed & Fd & Hd).
    destruct f; try done.
    + (* the loop was left by break *)
      destruct Hd as (Od & p' & c & Hp' & He' & Hc' & Hrun).
      unfold process_wait. rewrite Hp'. unfold Proc.wait. rewrite Hc'.
      set (we := with_self _ wd).
      assert (Ee : evolves wd we) by apply same_but_process_evolves, set_process_same.
      destruct (sync_heard we) as [Ef Of Ff Sf].
      set (wf := sync we) in *.
      assert (Ebf : evolves wb wf) by eauto using evolves_trans.
      assert (Obf : own (log wf) = own (log wb)) by (rewrite Of; simpl; by rewrite Od).
      assert (Fbf : fs wf = fs wb) by (rewrite Ff; simpl; by rewrite Fd).
      destruct (running (self wf)) eqn:Rf.
      * assert (c = status t) as ->.
        { apply Hrun. apply (heard_running_back _ _ Sf) in Rf. exact Rf. }
        destruct (Z.eqb (status t) 0) eqn:Hz; simpl.
        -- intros [= <- <-].
           edestruct (finish (emit (Progress (percent_of i total) file_path) wf))
             as (E & F & rest & Hl & Ho & HP);
             [eapply evolves_trans; [exact Ebf|apply emit_evolves] | exact Fbf
             | simpl; rewrite own_app, Obf; reflexivity | exact I |].
           split; [done|]. split; [done|]. exists rest. split; [done|].
           split; [done|]. intros _. exists t. split; [done|]. by apply Z.eqb_eq.
        -- intros [= <- <-].
           edestruct (finish wf []) as (E & F & rest & Hl & Ho & HP);
             [exact Ebf | exact Fbf | by rewrite app_nil_r | exact I |].
           split; [done|]. split; [done|]. exists rest. split; [done|].
           split; [done|]. split; [done|]. right. exists t. split; [done|].
           split; [by apply Z.eqb_neq|].
           unfold process_stderr_read. destruct Sf as [_ Af].
           destruct (Af Rf) as [-> _]. simpl. by rewrite He'.
      * rewrite andb_false_r. intros [= <- <-].
        edestruct (finish (emit (Progress (percent_of i total) file_path) wf))
          as (E & F & rest & Hl & Ho & HP);
          [eapply evolves_trans; [exact Ebf|apply emit_evolves] | exact Fbf
          | simpl; rewrite own_app, Obf; reflexivity | exact I |].
        split; [done|]. split; [done|]. exists rest. split; [done|].
        split; [done|]. simpl. rewrite Rf. discriminate.
    + (* Cancelled after a pause *)
      intros [= <- <-]. destruct Hd as [Od Rd].
      edestruct (finish wd [Emit Cancelled]) as (E & F & rest & Hl & Ho & HP);
        [eauto using evolves_trans | by rewrite Fd | exact Od | exact I |].
      split; [done|]. split; [done|]. exists rest. done.
    + (* asleep for ever *)
      intros [= <- <-]. destruct Hd as (Od & Rd & Pd).
      edestruct (finish wd []) as (E & F & rest & Hl & Ho & HP);
        [eauto using evolves_trans | by rewrite Fd | by rewrite app_nil_r | exact I |].
      split; [done|]. split; [done|]. exists rest. done.
  - intros [= <- <-].
    edestruct (finish wb []) as (E & F & rest & Hl & Ho & HP);
      [apply evolves_refl | done | by rewrite app_nil_r | exact I |].
    split; [done|]. split; [done|]. exists rest. split; [done|].
    split; [done|]. split; [by rewrite Sb|]. by left.
Qed.

Lemma launch_of_request aria2c_path final_dir s s' :
  request s = request s' ->
  launch_of aria2c_path final_dir s = launch_of aria2c_path final_dir s'.
Proof. unfold request, launch_of. by intros [= -> _ _ ->]. Qed.

(** The transfer of a file was launched in the round from [w] to [w']: the
    worker was running when it looked, the directory is there, and the trace
    goes on with the two steps. *)
Definition launched (w w' : World) (d : string) (cmd : list string) : Prop :=
  running (self (sync w)) = true /\
  d ∈ fs w' /\
  exists rest, log w' = log (sync w) ++ Makedirs d :: Popen cmd :: rest.

(** The ways one round of the loop over the files can go, with what the
    worker adds to the trace. *)
Variant round (host : Host) (total i : nat) (file_path d : string)
    (cmd : list string) (w w' : World) : Flow -> list Item -> Prop :=
| cancelled_at_top :
    running (self w') = false ->
    round host total i file_path d cmd w w' Returned [Emit Cancelled]
| cancelled_on_waking :
    launched w w' d cmd -> running (self w') = false ->
    round host total i file_path d cmd w w' Returned
      [Makedirs d; Popen cmd; Emit Cancelled]
| failed e :
    launched w w' d cmd -> running (self w') = true ->
    (transfers host i = SpawnError e \/
     exists t, transfers host i = Spawned t /\ status t <> 0 /\
               e = failure_text (status t) (diagnostics t)) ->
    round host total i file_path d cmd w w' Returned
      [Makedirs d; Popen cmd; Emit (Error (error_text file_path e))]
| progressed :
    launched w w' d cmd ->
    (running (self w') = true ->
     exists t, transfers host i = Spawned t /\ status t = 0) ->
    round host total i file_path d cmd w w' Normal
      [Makedirs d; Popen cmd; Emit (Progress (percent_of i total) file_path)]
| swallowed :
    launched w w' d cmd -> running (self w') = false ->
    round host total i file_path d cmd w w' Normal [Makedirs d; Popen cmd]
| parked :
    launched w w' d cmd -> running (self w') = true ->
    is_paused (self w') = true ->
    round host total i file_path d cmd w w' Parked [Makedirs d; Popen cmd].

Lemma download_file_spec host aria2c_path final_dir total i file_path w flow w' :
  flags_ok (self w) ->
  download_file host aria2c_path final_dir total i file_path w = (flow, w') ->
  evolves w w' /\
  exists added,
    own (log w') = own (log w) ++ added /\
    round host total i file_path (dir_of final_dir file_path)
      (launch_of aria2c_path final_dir (self w) file_path) w w' flow added.
Proof.
  intros Hf. unfold download_file.
  destruct (sync_heard w) as [E1 O1 F1 S1].
  pose proof (ev_flags _ _ E1 Hf) as Hf1.
  set (w1 := sync w) in *.
  destruct (running (self w1)) eqn:R1; simpl.
  2:{ intros [= <- <-]. split; [eapply evolves_trans; [exact E1|apply emit_evolves]|].
      exists [Emit Cancelled]. split; [simpl; by rewrite own_app, O1|].
      by constructor. }
  destruct (transfer host aria2c_path final_dir total i file_path w1) as [f w2] eqn:Ht.
  destruct (transfer_spec _ _ _ _ _ _ _ _ _ Hf1 R1 Ht) as (E2 & F2 & rest & L2 & H2).
  rewrite (launch_of_request _ _ _ (self w) (ev_request _ _ E1)) in L2.
  set (d := dir_of final_dir file_path) in *.
  set (cmd := launch_of aria2c_path final_dir (self w) file_path) in *.
  assert (Hd2 : d ∈ fs w2) by (rewrite F2; apply makedirs_made).
  assert (O2 : own (log w2) = own (log w) ++ Makedirs d :: Popen cmd :: own rest).
  { rewrite L2, own_app, O1. reflexivity. }
  assert (La : launched w w2 d cmd) by (split; [done|]; split; [done|]; eauto).
  destruct f.
  - intros [= <- <-]. destruct H2 as [Ho Hr].
    split; [eauto using evolves_trans|]. eexists. split; [rewrite O2, Ho; reflexivity|].
    by constructor.
  - intros [= <- <-]. destruct H2 as [Ho Hr].
    split; [eauto using evolves_trans|]. eexists. split; [rewrite O2, Ho; reflexivity|].
    by constructor.
  - destruct H2 as (Ho & Hr & Hwhy).
    destruct (sync_heard w2) as [E3 O3 F3 S3].
    set (w3 := sync w2) in *.
    assert (La3 : launched w w3 d cmd).
    { split; [done|]. split; [rewrite F3; exact Hd2|].
      destruct (ev_log _ _ E3) as [k Hk]. exists (rest ++ k).
      rewrite Hk, L2, <- app_assoc. reflexivity. }
    destruct (running (self w3)) eqn:R3.
    + intros [= <- <-].
      split; [eapply evolves_trans; [exact E1|]; eapply evolves_trans; [exact E2|];
              eapply evolves_trans; [exact E3|apply emit_evolves]|].
      eexists. split; [simpl; rewrite own_app, O3, O2, Ho, <- app_assoc; reflexivity|].
      apply failed; auto.
      destruct La3 as (? & ? & k & Hk). split; [done|]. split; [done|].
      exists (k ++ [Emit (Error (error_text file_path e))]). simpl.
      rewrite Hk, <- app_assoc. reflexivity.
    + intros [= <- <-].
      split; [eauto using evolves_trans|].
      eexists. split; [rewrite O3, O2, Ho; reflexivity|]. by constructor.
  - intros [= <- <-]. destruct H2 as (Ho & Hr & Hz).
    split; [eauto using evolves_trans|]. eexists. split; [rewrite O2, Ho; reflexivity|].
    by constructor.
  - done.
Qed.

(** *** Reading what the worker added to the trace *)

(** The signals of the worker thread, in order: [Progress], [Finished],
    [Cancelled], [Error].  ([Paused] and [Resumed] are emitted inside the
    window's own calls.) *)
Definition signals (l : list Item) : list Event := events (own l).

Lemma omap_own {A} (f : Item -> option A) l :
  (forall x, of_window x = true -> f x = None) ->
  omap f (own l) = omap f l.
Proof.
  intros Hf. unfold own. induction l as [|x l IH]; [done|]. simpl.
  destruct (of_window x) eqn:Hx; simpl.
  - rewrite (Hf x Hx). exact IH.
  - destruct (f x); [f_equal|]; exact IH.
Qed.

Lemma read_added {A} (f : Item -> option A) l l' added :
  (forall x, of_window x = true -> f x = None) ->
  own l' = own l ++ added ->
  omap f l' = omap f l ++ omap f added.
Proof.
  intros Hf Ho. by rewrite <- (omap_own f l'), Ho, omap_app, omap_own.
Qed.

Lemma launches_added l l' added :
  own l' = own l ++ added -> launches l' = launches l ++ launches added.
Proof. apply read_added. by intros [[]|[]| |]. Qed.

Lemma made_added l l' added :
  own l' = own l ++ added -> made l' = made l ++ made added.
Proof. apply read_added. by intros [[]|[]| |]. Qed.


Lemma progresses_added l l' added :
  own l' = own l ++ added -> progresses l' = progresses l ++ progresses added.
Proof. apply read_added. by intros [[]|[]| |]. Qed.

Lemma signals_added l l' added :
  own l' = own l ++ added -> signals l' = signals l ++ events added.
Proof. unfold signals, events. intros ->. by rewrite omap_app. Qed.

(** *** The loop over the files, whatever the window does *)


(** ** The properties of the specification *)

(** The destination subdirectory and the path of the transfer program, as
    [run] derives them before the loop. *)
Definition final_dir_of (s : DownloadWorker) : string :=
  os_path.join (local_dir s) (model_name_of (repo_id s)).

Definition aria2c_path_of (host : Host) : string :=
  resource_path host "aria2c.exe".

(** *** The control surface *)

(** C8: [pause()] on a worker that was stopped ([running] is false) and
    [resume()] on a worker that is not paused return the worker as it was
    (the same [running], [is_paused] and [pause_requested]) and emit no
    signal. *)
Theorem pause_after_stop_resume_when_not_paused_do_nothing (s : DownloadWorker) :
  (running s = false -> pause s = (s, [])) /\
  (is_paused s = false -> resume s = (s, [])).
Proof.
  split; intros H; unfold pause, resume; rewrite H; by rewrite ?andb_false_r.
Qed.

Lemma pause_after_stop_resume_when_not_paused_witness :
  let fresh := init "org/model" "/out" ["config.json"] None in
  let stopped := fst (stop fresh) in
  pause stopped = (stopped, []) /\ resume fresh = (fresh, []).
Proof.
  split.
  - apply (proj1 (pause_after_stop_resume_when_not_paused_do_nothing _)). reflexivity.
  - apply (proj2 (pause_after_stop_resume_when_not_paused_do_nothing _)). reflexivity.
Defined.

(** *** The checks before the loop *)





(** [run] past the empty-list check. *)
Lemma run_cases (host : Host) (w : World) :
  selected_files (self w) <> [] ->
  let w0 := makedirs (final_dir_of (self w)) w in
  run host w =
  if negb (Fs.exists_ (fs w0) (aria2c_path_of host))
  then (Returned, emit (Error (missing_text (aria2c_path_of host))) w0)
  else match download_files host (aria2c_path_of host) (final_dir_of (self w))
               (length (selected_files (self w))) 0 (selected_files (self w)) w0 with
       | (Normal, w1) => (Returned, emit Finished w1)
       | other => other
       end.
Proof.
  intros Hne. unfold run, final_dir_of, aria2c_path_of.
  destruct (selected_files (self w)) as [|f files] eqn:Hs; [done|].
  simpl. rewrite Hs. reflexivity.
Qed.

Lemma flags_ok_init repo_id local_dir files speed_limit :
  flags_ok (init repo_id local_dir files speed_limit).
Proof. by split. Qed.




(** A host on which every transfer prints two lines and exits with status 0,
    and the request of the specification's scenario. *)
Definition two_lines_then (code : Z) : Transfer :=
  {| output := ["[#1 12%]"; "[#1 100%]"]; diagnostics := "connection reset";
     status := code; killed_status := 1 |}.

Definition good_host : Host :=
  {| sys_MEIPASS := None; abspath_dot := "/app";
     transfers := fun _ => Spawned (two_lines_then 0) |}.

Definition with_tool : gset string := {[ "/app/aria2c.exe" ]}.

Definition scenario (calls : list (list Command)) : World :=
  session (init "org/model" "/out" ["config.json"; "weights.bin"] None) with_tool calls.


(** The scenario of the specification: [/out/model/config.json], then
    [/out/model/weights.bin]; [Progress 50], [Progress 100], [Finished]. *)
Example scenario_runs :
  let w' := snd (run good_host (scenario [])) in
  made (log w') = ["/out/model"; "/out/model"; "/out/model"] /\
  launches (log w') =
    [ ["/app/aria2c.exe"; "-x"; "16"; "-s"; "16"; "-j"; "5"; "--continue=true";
       "--dir"; "/out/model"; "--out"; "config.json";
       "https://huggingface.co/org/model/resolve/main/config.json"];
      ["/app/aria2c.exe"; "-x"; "16"; "-s"; "16"; "-j"; "5"; "--continue=true";
       "--dir"; "/out/model"; "--out"; "weights.bin";
       "https://huggingface.co/org/model/resolve/main/weights.bin"] ] /\
  signals (log w') =
    [Progress 50 "config.json"; Progress 100 "weights.bin"; Finished].
Proof. vm_compute. done. Qed.

(** The subdirectory of the two examples of the specification. *)
Example model_name_examples :
  model_name_of "MiniMaxAI/MiniMax-M2" = "MiniMax-M2" /\
  model_name_of "single-name" = "single-name".
Proof. by vm_compute. Qed.

(** *** The speed limit *)







(** *** The loop over the files when [stop] is never called *)

(** The [Progress] signals of the files [files], the first of index [i]. *)
Fixpoint reports (total i : nat) (files : list string) : list Event :=
  match files with
  | [] => []
  | file_path :: rest =>
      Progress (percent_of i total) file_path :: reports total (S i) rest
  end.

(** What the worker does for the files [files], the first of index [i],
    when it is left alone: how the loop ends and what enters the trace.
    [cmd_of] gives the command line of a file. *)
Fixpoint undisturbed (host : Host) (final_dir : string)
    (cmd_of : string -> list string) (total i : nat) (files : list string)
    : Flow * list Item :=
  match files with
  | [] => (Normal, [])
  | file_path :: rest =>
      let steps := [Makedirs (dir_of final_dir file_path); Popen (cmd_of file_path)] in
      match transfers host i with
      | Spawned t =>
          if Z.eqb (status t) 0 then
            let (flow, more) := undisturbed host final_dir cmd_of total (S i) rest in
            (flow, steps ++ Emit (Progress (percent_of i total) file_path) :: more)
          else
            (Returned,
             steps ++ [Emit (Error (error_text file_path
                                      (failure_text (status t) (diagnostics t))))])
      | SpawnError e => (Returned, steps ++ [Emit (Error (error_text file_path e))])
      end
  end.

(** With no call of [stop] to come, the loop over the files goes as
    [undisturbed] says, unless the worker is paused and never resumed. *)
Lemma download_files_calm host aria2c_path final_dir total :
  forall files i w flow w',
  flags_ok (self w) -> calm w ->
  download_files host aria2c_path final_dir total i files w = (flow, w') ->
  evolves w w' /\
  (flow = Parked /\ is_paused (self w') = true \/
   flow = fst (undisturbed host final_dir (launch_of aria2c_path final_dir (self w))
                 total i files) /\
   own (log w') =
     own (log w) ++
     snd (undisturbed host final_dir (launch_of aria2c_path final_dir (self w))
            total i files)).
Proof.
  induction files as [|file_path files IH]; intros i w flow w' Hf Hc; simpl.
  - intros [= <- <-]. split; [apply evolves_refl|]. right. by rewrite app_nil_r.
  - destruct (download_file host aria2c_path final_dir total i file_path w)
      as [f w1] eqn:H1.
    destruct (download_file_spec _ _ _ _ _ _ _ _ _ Hf H1) as (E1 & added1 & O1 & R1).
    destruct (ev_calm _ _ E1 Hc) as [Rc _].
    destruct R1 as [Hr | La Hr | e La Hr Hwhy | La Hok | La Hr | La Hr Hz];
      try congruence.
    + intros [= <- <-]. split; [done|]. right.
      destruct Hwhy as [-> | (t & -> & Hs & ->)].
      * done.
      * apply Z.eqb_neq in Hs. by rewrite Hs.
    + intros H2. destruct (Hok Rc) as (t & -> & Hs). rewrite Hs. simpl.
      destruct (IH _ _ _ _ (ev_flags _ _ E1 Hf) (ev_calm _ _ E1 Hc) H2) as (E2 & C2).
      split; [eauto using evolves_trans|].
      rewrite (launch_of_request _ _ _ (self w) (ev_request _ _ E1)) in C2.
      destruct (undisturbed _ _ _ _ _ _) as [fl more]. simpl in *.
      destruct C2 as [?|[-> O2]]; [by left|right].
      split; [done|]. by rewrite O2, O1, <- app_assoc.
    + intros [= <- <-]. split; [done|]. by left.
Qed.

(** When every transfer exits with status 0. *)
Lemma undisturbed_all_succeed host final_dir cmd_of total :
  forall files i,
  (forall j, (j < length files)%nat ->
     exists t, transfers host (i + j) = Spawned t /\ status t = 0) ->
  fst (undisturbed host final_dir cmd_of total i files) = Normal /\
  events (snd (undisturbed host final_dir cmd_of total i files)) =
    reports total i files /\
  launches (snd (undisturbed host final_dir cmd_of total i files)) =
    cmd_of <$> files.
Proof.
  induction files as [|file_path files IH]; intros i Hall; [done|]. simpl.
  destruct (Hall 0%nat ltac:(simpl; lia)) as (t & Ht & Hs).
  rewrite Nat.add_0_r in Ht. rewrite Ht, Hs. simpl.
  destruct (IH (S i)) as (Hfl & Hev & Hla).
  { intros j Hj. destruct (Hall (S j) ltac:(simpl; lia)) as (t' & Ht' & Hs').
    exists t'. by rewrite Nat.add_succ_comm. }
  destruct (undisturbed _ _ _ _ _ _) as [fl more]. simpl in *.
  by rewrite Hev, Hla.
Qed.


Lemma undisturbed_flow host final_dir cmd_of total : forall files i,
  fst (undisturbed host final_dir cmd_of total i files) = Normal \/
  fst (undisturbed host final_dir cmd_of total i files) = Returned.
Proof.
  induction files as [|f files IH]; intros i; simpl; [by left|].
  destruct (transfers host i) as [t|e]; [|by right].
  destruct (Z.eqb (status t) 0); [|by right].
  specialize (IH (S i)). by destruct (undisturbed _ _ _ _ _ _).
Qed.

(** [run] on a non-empty list, the transfer program in place, with no call
    of [stop] to come. *)
Lemma run_calm host w flow w' :
  flags_ok (self w) -> calm w ->
  selected_files (self w) <> [] ->
  Fs.exists_ (Fs.makedirs (fs w) (final_dir_of (self w))) (aria2c_path_of host) = true ->
  run host w = (flow, w') ->
  let U := undisturbed host (final_dir_of (self w))
             (launch_of (aria2c_path_of host) (final_dir_of (self w)) (self w))
             (length (selected_files (self w))) 0 (selected_files (self w)) in
  evolves w w' /\
  (flow = Parked /\ is_paused (self w') = true \/
   flow = Returned /\
   own (log w') =
     own (log w) ++ Makedirs (final_dir_of (self w)) :: snd U ++
     match fst U with Normal => [Emit Finished] | _ => [] end).
Proof.
  intros Hf Hc Hne Hx. rewrite (run_cases host w Hne). cbv zeta.
  set (fd := final_dir_of (self w)) in *. set (w0 := makedirs fd w).
  assert (E0 : evolves w w0) by apply makedirs_evolves.
  assert (O0 : own (log w0) = own (log w) ++ [Makedirs fd])
    by (simpl; by rewrite own_app).
  change (fs w0) with (Fs.makedirs (fs w) fd). rewrite Hx. simpl.
  destruct (download_files _ _ _ _ _ _ w0) as [f w1] eqn:Hd.
  destruct (download_files_calm _ _ _ _ _ _ w0 _ _ Hf (ev_calm _ _ E0 Hc) Hd)
    as (E1 & C1).
  change (self w0) with (self w) in C1.
  pose proof (undisturbed_flow host fd (launch_of (aria2c_path_of host) fd (self w))
                (length (selected_files (self w))) (selected_files (self w)) 0%nat) as HU.
  destruct (undisturbed _ _ _ _ _ _) as [fl more]. simpl in *.
  destruct C1 as [[-> Hp] | [-> O1]].
  - intros [= <- <-]. split; [eauto using evolves_trans|]. by left.
  - destruct HU as [-> | ->]; intros [= <- <-].
    + split; [eapply evolves_trans; [exact E0|];
              eapply evolves_trans; [exact E1|apply emit_evolves]|].
      right. split; [done|]. simpl.
      rewrite own_app, O1, O0, <- !app_assoc. reflexivity.
    + split; [eauto using evolves_trans|]. right. split; [done|].
      rewrite O1, O0, <- !app_assoc, app_nil_r. reflexivity.
Qed.

Lemma calm_session worker disk calls :
  running worker = true -> Stop ∉ concat calls -> calm (session worker disk calls).
Proof. by split. Qed.

Lemma unpaused_session worker disk calls :
  is_paused worker = false -> Pause ∉ concat calls ->
  unpaused (session worker disk calls).
Proof. by split. Qed.

(** *** The percentages *)

Lemma reports_length total : forall files i,
  length (reports total i files) = length files.
Proof. induction files as [|f files IH]; intros i; simpl; [done|]. by rewrite IH. Qed.

Lemma reports_lookup total : forall files i j file_path,
  files !! j = Some file_path ->
  reports total i files !! j = Some (Progress (percent_of (i + j) total) file_path).
Proof.
  induction files as [|f files IH]; intros i [|j] file_path; simpl; try done.
  - intros [= ->]. by rewrite Nat.add_0_r.
  - intros H. rewrite (IH (S i) j _ H). by rewrite Nat.add_succ_comm.
Qed.







Lemma reports_imap total : forall files k,
  reports total k files =
  imap (fun i file_path => Progress (percent_of (k + i) total) file_path) files.
Proof.
  induction files as [|f files IH]; intros k; simpl; [done|].
  rewrite Nat.add_0_r, IH. f_equal. apply imap_ext. intros i x _. simpl.
  do 2 f_equal. lia.
Qed.

#[global] Instance Command_eq_dec : EqDecision Command.
Proof. solve_decision. Defined.

(** What a session as [start_download] leaves it gives when [stop] is not
    called and the transfer program is in place. *)
Lemma session_calm host repo_id local_dir files speed_limit disk calls flow w' :
  let w := session (init repo_id local_dir files speed_limit) disk calls in
  let U := undisturbed host (final_dir_of (self w))
             (launch_of (aria2c_path_of host) (final_dir_of (self w)) (self w))
             (length files) 0 files in
  files <> [] -> Stop ∉ concat calls ->
  Fs.exists_ (Fs.makedirs disk (final_dir_of (self w))) (aria2c_path_of host) = true ->
  run host w = (flow, w') ->
  flow = Parked /\ is_paused (self w') = true /\ Pause ∈ concat calls \/
  flow = Returned /\
  signals (log w') =
    events (snd U) ++ match fst U with Normal => [Finished] | _ => [] end /\
  launches (log w') = launches (snd U).
Proof.
  intros w U Hne Hs Hx Hrun.
  assert (Hc : calm w) by (by apply calm_session).
  destruct (run_calm host w flow w' (flags_ok_init _ _ _ _) Hc Hne Hx Hrun)
    as (E & [[-> Hp] | [-> O]]).
  - left. split; [done|]. split; [done|].
    destruct (decide (Pause ∈ concat calls)) as [|Hn]; [done|].
    assert (Hu : unpaused w) by (by apply unpaused_session).
    destruct (ev_unpaused _ _ E Hu). congruence.
  - right. split; [done|]. subst U. simpl in O |- *.
    destruct (undisturbed _ _ _ _ _ _) as [fl more]. simpl in O |- *.
    rewrite (signals_added [] _ _ O), (launches_added [] _ _ O).
    unfold launches, events. simpl. rewrite !omap_app.
    split; [f_equal; by destruct fl|].
    rewrite <- (app_nil_r (omap _ more)) at 2. f_equal. by destruct fl.
Qed.

(** *** Success and failure of the transfers *)






(** The scenario of the specification: of three files the second exits
    with status 1. *)
Definition second_fails : Host :=
  {| sys_MEIPASS := None; abspath_dot := "/app";
     transfers := fun i => Spawned (two_lines_then (if Nat.eqb i 1 then 1 else 0)) |}.


(** What the window hears in that scenario. *)
Example second_of_three_fails :
  signals (log (snd (run second_fails
     (session (init "org/model" "/out" ["a.bin"; "b.bin"; "c.bin"] None)
        with_tool [])))) =
  [Progress 33 "a.bin";
   Error (error_text "b.bin" (failure_text 1 "connection reset"))].
Proof. by vm_compute. Qed.

(** *** Stopping *)






(** What the window hears when it pauses the first of two transfers and
    then stops: the transfer is terminated and [Cancelled] is the one
    signal of the worker. *)
Example stop_while_paused :
  let w' := snd (run good_host (scenario [[]; [Pause]; [Stop]])) in
  events (log w') = [Paused; Cancelled] /\
  signals (log w') = [Cancelled] /\
  length (launches (log w')) = 1%nat /\
  (returncode <$> current_process (self w')) = Some (Some 1).
Proof. by vm_compute. Qed.

(** C3 does not hold of the code.  The window calls [stop] while the worker
    watches the first of two transfers, not paused: the worker terminates
    the transfer (it reports status 1), leaves the loop by [break], and the
    status check lets it pass because [running] is false; so [Progress] is
    emitted for [config.json], whose transfer did not complete, and only then
    [Cancelled].  With one file the same call ends in [Progress 100] and
    [Finished]. *)
Theorem progress_is_reported_for_a_terminated_transfer :
  let two := snd (run good_host (scenario [[]; [Stop]])) in
  let one := snd (run good_host
                    (session (init "org/model" "/out" ["config.json"] None)
                       with_tool [[]; [Stop]])) in
  (drop 3 (log two) = [Call Stop; Emit (Progress 50 "config.json"); Emit Cancelled] /\
   length (launches (log two)) = 1%nat /\
   (returncode <$> current_process (self two)) = Some (Some 1)) /\
  (drop 3 (log one) = [Call Stop; Emit (Progress 100 "config.json"); Emit Finished] /\
   length (launches (log one)) = 1%nat /\
   (returncode <$> current_process (self one)) = Some (Some 1)).
Proof. by vm_compute. Qed.

(** * Further properties of the worker *)

(** ** The three methods together *)

(** [stop()] is final: once it was called, a further call of [stop],
    [pause] or [resume] leaves every field of the worker as it is, the
    transfer is not terminated a second time, and no signal is emitted. *)
Theorem nothing_changes_after_stop (c : Command) (s : DownloadWorker) :
  call c (fst (stop s)) = (fst (stop s), []).
Proof.
  destruct c; simpl; unfold stop, pause, resume; simpl; [|done..].
  f_equal. unfold set_current_process, set_flags. simpl. f_equal.
  destruct (current_process s) as [p|]; simpl; [|done]. by rewrite terminate_idem.
Qed.

(** [pause()] on a running worker that is not paused closes the gate and
    emits [Paused]; a second [pause()] then does nothing; [resume()] emits
    [Resumed] and gives back the worker as it was before the pause, the
    transfer untouched throughout. *)
Theorem pause_then_resume_round_trip (s : DownloadWorker) :
  running s = true -> is_paused s = false -> pause_requested s = true ->
  let paused := fst (pause s) in
  pause s = (paused, [Paused]) /\
  is_paused paused = true /\ pause_requested paused = false /\
  current_process paused = current_process s /\
  pause paused = (paused, []) /\
  resume paused = (s, [Resumed]).
Proof.
  destruct s as [q d f l r p g c]. simpl. intros -> -> ->. by vm_compute.
Qed.

Lemma pause_then_resume_round_trip_witness :
  let s := init "org/model" "/out" ["config.json"] None in
  let paused := fst (pause s) in
  pause s = (paused, [Paused]) /\
  is_paused paused = true /\ pause_requested paused = false /\
  current_process paused = current_process s /\
  pause paused = (paused, []) /\
  resume paused = (s, [Resumed]).
Proof.
  apply (pause_then_resume_round_trip (init "org/model" "/out" ["config.json"] None));
    reflexivity.
Defined.

(** The worker after the calls [cs], made in this order. *)
Definition after_calls (cs : list Command) (s : DownloadWorker) : DownloadWorker :=
  fold_left (fun s c => fst (call c s)) cs s.

Lemma after_calls_flags_ok cs : forall s, flags_ok s -> flags_ok (after_calls cs s).
Proof.
  induction cs as [|c cs IH]; intros s H; simpl; [done|].
  apply IH. by apply call_keeps_flags_ok.
Qed.

Lemma after_calls_running cs : forall s,
  running (after_calls cs s) = true <-> running s = true /\ Stop ∉ cs.
Proof.
  induction cs as [|c cs IH]; intros s; simpl.
  - split; [intros H; split; [done|apply not_elem_of_nil]|by intros [? _]].
  - rewrite IH, call_running, not_elem_of_cons. destruct c; intuition congruence.
Qed.

Lemma after_calls_request cs : forall s, request (after_calls cs s) = request s.
Proof.
  induction cs as [|c cs IH]; intros s; [done|].
  change (after_calls (c :: cs) s) with (after_calls cs (fst (call c s))).
  by rewrite IH, call_request.
Qed.

(** Whatever the window calls on a new worker, in whatever order: the
    [threading.Event] is clear exactly when the worker is paused, a paused
    worker is running (so a stopped worker is never left waiting), and the
    worker is running exactly when [stop] was not among the calls. *)
Theorem gate_is_closed_exactly_when_paused
    (repo_id local_dir : string) (files : list string)
    (speed_limit : option string) (cs : list Command) :
  let s := after_calls cs (init repo_id local_dir files speed_limit) in
  pause_requested s = negb (is_paused s) /\
  (is_paused s = true -> running s = true) /\
  (running s = true <-> Stop ∉ cs) /\
  request s = request (init repo_id local_dir files speed_limit).
Proof.
  intros s.
  destruct (after_calls_flags_ok cs _ (flags_ok_init repo_id local_dir files speed_limit))
    as [G P].
  split; [exact G|]. split; [exact P|]. split.
  - subst s. rewrite after_calls_running. simpl. tauto.
  - apply after_calls_request.
Qed.

(** ** How a run ends *)

Definition is_progress (e : Event) : bool :=
  match e with Progress _ _ => true | _ => false end.

(** The signals the loop over the files adds: [Progress] signals, followed
    by [Cancelled] or [Error] when the loop is left by [return]. *)
Lemma download_files_signals host aria2c_path final_dir total :
  forall files i w flow w',
  flags_ok (self w) ->
  download_files host aria2c_path final_dir total i files w = (flow, w') ->
  exists added,
    own (log w') = own (log w) ++ added /\
    match flow with
    | Normal => forallb is_progress (events added) = true
    | Returned =>
        exists ps t, events added = ps ++ [t] /\ forallb is_progress ps = true /\
                     is_terminal t = true
    | Parked =>
        forallb is_progress (events added) = true /\
        running (self w') = true /\ is_paused (self w') = true
    | _ => False
    end.
Proof.
  induction files as [|file_path files IH]; intros i w flow w' Hf; simpl.
  - intros [= <- <-]. exists []. by rewrite app_nil_r.
  - destruct (download_file host aria2c_path final_dir total i file_path w)
      as [f w1] eqn:H1.
    destruct (download_file_spec _ _ _ _ _ _ _ _ _ Hf H1) as (E1 & added1 & O1 & R1).
    destruct R1 as [Hr | La Hr | e La Hr Hwhy | La Hok | La Hr | La Hr Hz].
    + intros [= <- <-]. eexists. split; [exact O1|]. by exists [], Cancelled.
    + intros [= <- <-]. eexists. split; [exact O1|]. by exists [], Cancelled.
    + intros [= <- <-]. eexists. split; [exact O1|]. by eexists [], _.
    + intros H2. destruct (IH _ _ _ _ (ev_flags _ _ E1 Hf) H2) as (added2 & O2 & T2).
      eexists. split; [rewrite O2, O1, <- app_assoc; reflexivity|].
      destruct flow; try done; simpl.
      destruct T2 as (ps & t & -> & Hps & Ht).
      exists (Progress (percent_of i total) file_path :: ps), t. done.
    + intros H2. destruct (IH _ _ _ _ (ev_flags _ _ E1 Hf) H2) as (added2 & O2 & T2).
      eexists. split; [rewrite O2, O1, <- app_assoc; reflexivity|]. exact T2.
    + intros [= <- <-]. eexists. split; [exact O1|]. done.
Qed.

(** The signals a run adds, whatever the trace held before. *)
Lemma run_signals (host : Host) (w : World) flow w' :
  flags_ok (self w) ->
  run host w = (flow, w') ->
  exists added,
    signals (log w') = signals (log w) ++ added /\
    (flow = Returned /\
     (exists ps t, added = ps ++ [t] /\
                   forallb is_progress ps = true /\ is_terminal t = true) \/
     flow = Parked /\
     forallb is_progress added = true /\
     running (self w') = true /\ is_paused (self w') = true).
Proof.
  intros Hf.
  destruct (selected_files (self w)) as [|f0 fs0] eqn:Hs.
  { unfold run. rewrite Hs. intros [= <- <-]. exists [Finished]. split.
    - by rewrite (signals_added (log w) _ [Emit Finished]); [|simpl; rewrite own_app].
    - left. split; [done|]. by exists [], Finished. }
  assert (Hne : selected_files (self w) <> []) by (by rewrite Hs).
  rewrite (run_cases host w Hne). cbv zeta.
  set (fd := final_dir_of (self w)). set (w0 := makedirs fd w).
  assert (O0 : own (log w0) = own (log w) ++ [Makedirs fd]) by (simpl; by rewrite own_app).
  destruct (Fs.exists_ (fs w0) (aria2c_path_of host)); simpl.
  2:{ intros [= <- <-]. exists [Error (missing_text (aria2c_path_of host))]. split.
      - rewrite (signals_added (log w) _
                   [Makedirs fd; Emit (Error (missing_text (aria2c_path_of host)))]);
          [done|].
        simpl. rewrite !own_app, <- app_assoc. reflexivity.
      - left. split; [done|]. by eexists [], _. }
  destruct (download_files _ _ _ _ _ _ w0) as [f w1] eqn:Hd.
  destruct (download_files_signals _ _ _ _ _ _ w0 _ _ Hf Hd) as (added & O1 & T).
  assert (S1 : signals (log w1) = signals (log w) ++ events added).
  { rewrite (signals_added (log w) _ (Makedirs fd :: added)); [done|].
    rewrite O1, O0, <- app_assoc. reflexivity. }
  destruct f; try done.
  - intros [= <- <-]. exists (events added ++ [Finished]). split.
    + rewrite (signals_added (log w1) _ [Emit Finished]);
        [by rewrite S1, <- app_assoc|].
      simpl. by rewrite own_app.
    + left. split; [done|]. by exists (events added), Finished.
  - intros [= <- <-]. exists (events added). split; [done|]. left. by split.
  - intros [= <- <-]. exists (events added). split; [done|]. right. by split.
Qed.



(** ** Runs that are not stopped *)

(** When the worker, left alone, runs the loop to its end, every transfer
    exited with status 0; and what it does never holds a terminal signal
    other than [Error]. *)
Lemma undisturbed_normal host final_dir cmd_of total : forall files i,
  fst (undisturbed host final_dir cmd_of total i files) = Normal ->
  forall j, (j < length files)%nat ->
    exists t, transfers host (i + j) = Spawned t /\ status t = 0.
Proof.
  induction files as [|f files IH]; intros i H j Hj; simpl in *; [lia|].
  destruct (transfers host i) as [t|e] eqn:Ht; [|done].
  destruct (Z.eqb (status t) 0) eqn:Hs; [|done].
  specialize (IH (S i)). destruct (undisturbed _ _ _ _ _ _) as [fl more].
  simpl in *. destruct j as [|j].
  - exists t. rewrite Nat.add_0_r. split; [done|]. by apply Z.eqb_eq.
  - destruct (IH H j ltac:(lia)) as (t' & Ht' & Hs').
    exists t'. by rewrite <- Nat.add_succ_comm.
Qed.

Lemma undisturbed_no_finished host final_dir cmd_of total : forall files i,
  (Finished ∉ events (snd (undisturbed host final_dir cmd_of total i files))) /\
  Cancelled ∉ events (snd (undisturbed host final_dir cmd_of total i files)).
Proof.
  induction files as [|f files IH]; intros i; simpl.
  - split; apply not_elem_of_nil.
  - destruct (transfers host i) as [t|e].
    + destruct (Z.eqb (status t) 0).
      * specialize (IH (S i)). destruct (undisturbed _ _ _ _ _ _) as [fl more].
        simpl in *. destruct IH as [IF IC].
        split; (intros [?|?]%elem_of_cons; [done|auto]).
      * simpl. split;
          (intros [?|?%elem_of_nil]%elem_of_cons; done).
    + simpl. split; (intros [?|?%elem_of_nil]%elem_of_cons; done).
Qed.

(** [Finished] can be trusted when [stop] was not called: the run then
    launched the transfer of every file of the list, in order, and every
    one of them exited with status 0. *)
Theorem finished_means_every_transfer_succeeded
    (host : Host) (repo_id local_dir : string) (files : list string)
    (speed_limit : option string) (disk : gset string)
    (calls : list (list Command)) flow w' :
  let w := session (init repo_id local_dir files speed_limit) disk calls in
  files <> [] -> Stop ∉ concat calls ->
  run host w = (flow, w') ->
  Finished ∈ signals (log w') ->
  flow = Returned /\
  (forall i, (i < length files)%nat ->
     exists t, transfers host i = Spawned t /\ status t = 0) /\
  launches (log w') =
    launch_of (aria2c_path_of host) (final_dir_of (self w)) (self w) <$> files /\
  signals (log w') =
    imap (fun i file_path => Progress (percent_of i (length files)) file_path) files
    ++ [Finished].
Proof.
  intros w Hne Hs Hrun Hfin.
  destruct (Fs.exists_ (Fs.makedirs disk (final_dir_of (self w))) (aria2c_path_of host))
    eqn:Hx.
  2:{ exfalso. rewrite (run_cases host w Hne) in Hrun. cbv zeta in Hrun.
      change (fs (makedirs (final_dir_of (self w)) w))
        with (Fs.makedirs disk (final_dir_of (self w))) in Hrun.
      rewrite Hx in Hrun. simpl in Hrun. injection Hrun as <- <-.
      vm_compute in Hfin. apply list_elem_of_singleton in Hfin. done. }
  destruct (session_calm host repo_id local_dir files speed_limit disk calls
              flow w' Hne Hs Hx Hrun) as [(-> & Hp & _) | (-> & Hsig & Hla)].
  { exfalso.
    destruct (run_signals host w Parked w' (flags_ok_init _ _ _ _) Hrun)
      as (added & Hsg & [[? _] | (_ & Hpr & _)]); [done|].
    rewrite Hsg in Hfin. change (signals (log w)) with (@nil Event) in Hfin.
    simpl in Hfin. rewrite forallb_forall in Hpr.
    apply list_elem_of_In, Hpr in Hfin. done. }
  fold w in Hsig, Hla.
  set (U := undisturbed host (final_dir_of (self w))
              (launch_of (aria2c_path_of host) (final_dir_of (self w)) (self w))
              (length files) 0 files) in *.
  destruct (undisturbed_no_finished host (final_dir_of (self w))
              (launch_of (aria2c_path_of host) (final_dir_of (self w)) (self w))
              (length files) files 0%nat) as [Hnf _].
  fold U in Hnf.
  assert (HU : fst U = Normal).
  { rewrite Hsig in Hfin. apply elem_of_app in Hfin as [?|Hfin]; [done|].
    destruct (fst U); try done; by apply elem_of_nil in Hfin. }
  pose proof (undisturbed_normal host _ _ _ files 0%nat HU) as Hall.
  destruct (undisturbed_all_succeed host (final_dir_of (self w))
              (launch_of (aria2c_path_of host) (final_dir_of (self w)) (self w))
              (length files) files 0%nat Hall) as (_ & Hev & Hl).
  fold U in Hev, Hl.
  split; [done|]. split; [exact Hall|]. split; [by rewrite Hla, Hl|].
  by rewrite Hsig, Hev, HU, (reports_imap (length files) files 0).
Qed.

Lemma finished_means_every_transfer_succeeded_witness :
  let w := scenario [[Pause]; [Resume]] in
  let w' := snd (run good_host w) in
  fst (run good_host w) = Returned /\
  (forall i, (i < 2)%nat ->
     exists t, transfers good_host i = Spawned t /\ status t = 0) /\
  launches (log w') =
    launch_of (aria2c_path_of good_host) (final_dir_of (self w)) (self w)
      <$> ["config.json"; "weights.bin"] /\
  signals (log w') =
    imap (fun i file_path => Progress (percent_of i 2) file_path)
      ["config.json"; "weights.bin"]
    ++ [Finished].
Proof.
  intros w w'.
  apply (finished_means_every_transfer_succeeded good_host "org/model" "/out"
           ["config.json"; "weights.bin"] None with_tool [[Pause]; [Resume]]
           (fst (run good_host w)) w').
  - discriminate.
  - apply (bool_decide_unpack _). vm_compute. exact I.
  - apply surjective_pairing.
  - apply (list_elem_of_lookup_2 _ 2%nat). vm_compute. reflexivity.
Defined.

(** [pause] and [resume] change nothing of what the worker does: when
    [stop] is not called and the run returns, the worker has made the
    directories, launched the transfers and emitted the signals of the run
    that no call disturbs, in the same order. *)
Theorem pause_and_resume_leave_the_outcome_alone
    (host : Host) (repo_id local_dir : string) (files : list string)
    (speed_limit : option string) (disk : gset string)
    (calls : list (list Command)) w' :
  let worker := init repo_id local_dir files speed_limit in
  let alone := run host (session worker disk []) in
  Stop ∉ concat calls ->
  run host (session worker disk calls) = (Returned, w') ->
  fst alone = Returned /\
  own (log w') = own (log (snd alone)) /\
  signals (log w') = signals (log (snd alone)) /\
  launches (log w') = launches (log (snd alone)).
Proof.
  intros worker alone Hs Hrun.
  assert (Hgoal : fst alone = Returned /\ own (log w') = own (log (snd alone))).
  2:{ destruct Hgoal as (H1 & H2). split; [done|]. split; [done|].
      split; [unfold signals; by rewrite H2|].
      unfold launches. rewrite <- (omap_own _ (log w')), H2, omap_own; [done|..];
        by intros [[]|[]| |]. }
  subst alone.
  destruct files as [|f0 files0].
  { unfold run in *. simpl in *. injection Hrun as <-. done. }
  set (files := f0 :: files0) in *.
  assert (Hne : files <> []) by done.
  destruct (run host (session worker disk [])) as [flow0 w0] eqn:Hrun0. simpl.
  destruct (Fs.exists_ (Fs.makedirs disk (final_dir_of worker)) (aria2c_path_of host))
    eqn:Hx.
  2:{ rewrite (run_cases host (session worker disk calls) Hne) in Hrun.
      rewrite (run_cases host (session worker disk []) Hne) in Hrun0.
      cbv zeta in Hrun, Hrun0.
      simpl in Hrun, Hrun0. fold worker in Hrun, Hrun0.
      rewrite Hx in Hrun, Hrun0. simpl in Hrun, Hrun0.
      injection Hrun as <-. injection Hrun0 as <- <-. done. }
  assert (Hn : Stop ∉ concat (@nil (list Command))) by apply not_elem_of_nil.
  destruct (run_calm host (session worker disk calls) Returned w'
              (flags_ok_init _ _ _ _)
              (calm_session worker disk calls eq_refl Hs) Hne Hx Hrun)
    as (_ & [[? _] | [_ O]]); [done|].
  destruct (run_calm host (session worker disk []) flow0 w0
              (flags_ok_init _ _ _ _)
              (calm_session worker disk [] eq_refl Hn) Hne Hx Hrun0)
    as (E0 & [[-> Hp] | [-> O0]]).
  { assert (Hu : unpaused (session worker disk []))
      by (apply unpaused_session; [done|apply not_elem_of_nil]).
    destruct (ev_unpaused _ _ E0 Hu). congruence. }
  simpl in O, O0. split; [done|]. by rewrite O, O0.
Qed.

Lemma pause_and_resume_leave_the_outcome_alone_witness :
  let worker := init "org/model" "/out" ["config.json"; "weights.bin"] None in
  let alone := run good_host (session worker with_tool []) in
  let w' := snd (run good_host (session worker with_tool [[Pause]; []; [Resume]])) in
  fst alone = Returned /\
  own (log w') = own (log (snd alone)) /\
  signals (log w') = signals (log (snd alone)) /\
  launches (log w') = launches (log (snd alone)).
Proof.
  apply (pause_and_resume_leave_the_outcome_alone good_host "org/model" "/out"
           ["config.json"; "weights.bin"] None with_tool [[Pause]; []; [Resume]]).
  - apply (bool_decide_unpack _). vm_compute. exact I.
  - vm_compute. reflexivity.
Defined.





(** * The window: starting a session *)

(** ** [str.strip] *)












(** * The window: colours of the buttons *)

From Stdlib Require HexString.

(** ** [int(s, 16)] and the format [02x], on ASCII text *)

Module Py.

(** The white space [int] skips around a number. *)
Definition is_space (c : ascii) : bool :=
  let n := nat_of_ascii c in
  (Nat.leb 9 n && Nat.leb n 13)%bool || Nat.eqb n 32.






(** [s.lstrip(c)] for a one-character [c]. *)
Fixpoint lstrip (c : ascii) (s : string) : string :=
  match s with
  | String d s' => if Ascii.eqb d c then lstrip c s' else s
  | EmptyString => EmptyString
  end.


End Py.

(** ** [MainWindow.darken_color] and [MainWindow.get_button_style] *)






(** *** What [02x] writes, [int] reads back *)




















(** * The external process at the end of a run *)













(** * The window

    The widgets of [MainWindow] as the values the methods read and write:
    the texts and check boxes of the form, the paragraphs of the log, the
    value of the progress bar, the two buttons, and the texts of the message
    boxes shown so far.  [None] stands for an exception leaving a method. *)

(** The three methods the download button is connected to in turn. *)
Inductive Slot := to_start_download | to_pause_download | to_resume_download.

Record Button := {
  text : string;
  enabled : bool;
  clicked : list Slot      (* the slots connected to [clicked] *)
}.

Record MainWindow := {
  form : Form;
  speed_input_enabled : bool;
  file_count_label : string;
  progress_bar : Z;
  status_text : list string;
  download_btn : Button;
  stop_btn_enabled : bool;
  file_paths : list string;
  worker : option DownloadWorker;
  boxes : list string
}.

(** [MainWindow.__init__], as far as these values go. *)
Definition new_window : MainWindow :=
  {| form := {| repo_input := "请输入项目ID-例如：MiniMaxAI/MiniMax-M2";
                dir_input := "./downloaded_model";
                file_list_widget := [];
                speed_checkbox := false;
                speed_input := EmptyString |};
     speed_input_enabled := true;
     file_count_label := "共 0 个文件";
     progress_bar := 0;
     status_text := [];
     download_btn := {| text := "🚀 开始下载"; enabled := false;
                        clicked := [to_start_download] |};
     stop_btn_enabled := false;
     file_paths := [];
     worker := None;
     boxes := [] |}.

Definition set_form (f : Form) (win : MainWindow) : MainWindow :=
  {| form := f; speed_input_enabled := speed_input_enabled win;
     file_count_label := file_count_label win; progress_bar := progress_bar win;
     status_text := status_text win; download_btn := download_btn win;
     stop_btn_enabled := stop_btn_enabled win; file_paths := file_paths win;
     worker := worker win; boxes := boxes win |}.

Definition set_speed_input_enabled (b : bool) (win : MainWindow) : MainWindow :=
  {| form := form win; speed_input_enabled := b;
     file_count_label := file_count_label win; progress_bar := progress_bar win;
     status_text := status_text win; download_btn := download_btn win;
     stop_btn_enabled := stop_btn_enabled win; file_paths := file_paths win;
     worker := worker win; boxes := boxes win |}.

Definition set_file_count_label (s : string) (win : MainWindow) : MainWindow :=
  {| form := form win; speed_input_enabled := speed_input_enabled win;
     file_count_label := s; progress_bar := progress_bar win;
     status_text := status_text win; download_btn := download_btn win;
     stop_btn_enabled := stop_btn_enabled win; file_paths := file_paths win;
     worker := worker win; boxes := boxes win |}.

Definition set_status_text (l : list string) (win : MainWindow) : MainWindow :=
  {| form := form win; speed_input_enabled := speed_input_enabled win;
     file_count_label := file_count_label win; progress_bar := progress_bar win;
     status_text := l; download_btn := download_btn win;
     stop_btn_enabled := stop_btn_enabled win; file_paths := file_paths win;
     worker := worker win; boxes := boxes win |}.

Definition set_download_btn (b : Button) (win : MainWindow) : MainWindow :=
  {| form := form win; speed_input_enabled := speed_input_enabled win;
     file_count_label := file_count_label win; progress_bar := progress_bar win;
     status_text := status_text win; download_btn := b;
     stop_btn_enabled := stop_btn_enabled win; file_paths := file_paths win;
     worker := worker win; boxes := boxes win |}.

Definition set_stop_btn_enabled (b : bool) (win : MainWindow) : MainWindow :=
  {| form := form win; speed_input_enabled := speed_input_enabled win;
     file_count_label := file_count_label win; progress_bar := progress_bar win;
     status_text := status_text win; download_btn := download_btn win;
     stop_btn_enabled := b; file_paths := file_paths win;
     worker := worker win; boxes := boxes win |}.

Definition set_file_paths (l : list string) (win : MainWindow) : MainWindow :=
  {| form := form win; speed_input_enabled := speed_input_enabled win;
     file_count_label := file_count_label win; progress_bar := progress_bar win;
     status_text := status_text win; download_btn := download_btn win;
     stop_btn_enabled := stop_btn_enabled win; file_paths := l;
     worker := worker win; boxes := boxes win |}.

Definition set_worker (s : option DownloadWorker) (win : MainWindow) : MainWindow :=
  {| form := form win; speed_input_enabled := speed_input_enabled win;
     file_count_label := file_count_label win; progress_bar := progress_bar win;
     status_text := status_text win; download_btn := download_btn win;
     stop_btn_enabled := stop_btn_enabled win; file_paths := file_paths win;
     worker := s; boxes := boxes win |}.

Definition set_boxes (l : list string) (win : MainWindow) : MainWindow :=
  {| form := form win; speed_input_enabled := speed_input_enabled win;
     file_count_label := file_count_label win; progress_bar := progress_bar win;
     status_text := status_text win; download_btn := download_btn win;
     stop_btn_enabled := stop_btn_enabled win; file_paths := file_paths win;
     worker := worker win; boxes := l |}.

(** [self.status_text.append(line)] and a [QMessageBox] with text [message]. *)
Definition status_append (line : string) (win : MainWindow) : MainWindow :=
  set_status_text (status_text win ++ [line]) win.

Definition message_box (message : string) (win : MainWindow) : MainWindow :=
  set_boxes (boxes win ++ [message]) win.

(** [self.progress_bar.setValue(v)]: a value outside the range of the bar,
    0 to 100, is ignored. *)
Definition progress_bar_setValue (v : Z) (win : MainWindow) : MainWindow :=
  if Z.leb 0 v && Z.leb v 100
  then {| form := form win; speed_input_enabled := speed_input_enabled win;
          file_count_label := file_count_label win; progress_bar := v;
          status_text := status_text win; download_btn := download_btn win;
          stop_btn_enabled := stop_btn_enabled win; file_paths := file_paths win;
          worker := worker win; boxes := boxes win |}
  else win.

(** [self.download_btn.setText(t)], [.clicked.disconnect()], which raises
    when nothing is connected, and [.clicked.connect(slot)]. *)
Definition download_btn_setText (t : string) (win : MainWindow) : MainWindow :=
  set_download_btn {| text := t; enabled := enabled (download_btn win);
                      clicked := clicked (download_btn win) |} win.

Definition download_btn_setEnabled (b : bool) (win : MainWindow) : MainWindow :=
  set_download_btn {| text := text (download_btn win); enabled := b;
                      clicked := clicked (download_btn win) |} win.

Definition download_btn_disconnect (win : MainWindow) : option MainWindow :=
  match clicked (download_btn win) with
  | [] => None
  | _ => Some (set_download_btn {| text := text (download_btn win);
                                   enabled := enabled (download_btn win);
                                   clicked := [] |} win)
  end.

Definition download_btn_connect (slot : Slot) (win : MainWindow) : MainWindow :=
  set_download_btn {| text := text (download_btn win);
                      enabled := enabled (download_btn win);
                      clicked := clicked (download_btn win) ++ [slot] |} win.

(** The three lines that put a text and a slot on the download button. *)
Definition download_btn_becomes (t : string) (slot : Slot) (win : MainWindow)
    : option MainWindow :=
  win ← download_btn_disconnect (download_btn_setText t win);
  Some (download_btn_connect slot win).

(** ** The slots of the worker's signals *)

Definition update_progress (percent : Z) (current_file : string)
    (win : MainWindow) : option MainWindow :=
  let win := progress_bar_setValue percent win in
  Some (status_append ("📦 正在下载: " +:+ current_file +:+ " (" +:+ Str.of_Z percent
                       +:+ "%)") win).

Definition download_paused (win : MainWindow) : option MainWindow :=
  download_btn_becomes "▶️ 继续下载" to_resume_download
    (status_append "⏸️ 下载已暂停。" win).

Definition download_resumed (win : MainWindow) : option MainWindow :=
  download_btn_becomes "⏸️ 暂停下载" to_pause_download
    (status_append "▶️ 下载已继续。" win).

Definition download_finished (win : MainWindow) : option MainWindow :=
  let win := progress_bar_setValue 100 win in
  let win := status_append "🎉 所有文件下载完成！" win in
  let win := message_box "所有选中文件已下载完毕！" win in
  win ← download_btn_becomes "🚀 开始下载" to_start_download win;
  Some (set_stop_btn_enabled false win).

Definition download_cancelled (win : MainWindow) : option MainWindow :=
  let win := status_append "⏸️ 下载已由用户取消。" win in
  win ← download_btn_becomes "🚀 开始下载" to_start_download win;
  Some (set_stop_btn_enabled false win).

Definition download_error (error_msg : string) (win : MainWindow) : option MainWindow :=
  let win := status_append ("❌ 下载出错: " +:+ error_msg) win in
  let win := message_box ("下载过程中发生错误:" +:+ Str.nl +:+ error_msg) win in
  win ← download_btn_becomes "🚀 开始下载" to_start_download win;
  Some (set_stop_btn_enabled false win).

(** The slot connected to the signal that carries [e]. *)
Definition on_signal (e : Event) : MainWindow -> option MainWindow :=
  match e with
  | Progress percent file => update_progress percent file
  | Finished => download_finished
  | Cancelled => download_cancelled
  | Paused => download_paused
  | Resumed => download_resumed
  | Error msg => download_error msg
  end.

(** The signals a method of the worker emits when the window calls it are
    emitted in the window's own thread: their slots run at once, in order. *)
Fixpoint deliver_now (evs : list Event) (win : MainWindow) : option MainWindow :=
  match evs with
  | [] => Some win
  | e :: rest => on_signal e win ≫= deliver_now rest
  end.

(** ** The slots of the buttons *)

(** [self.worker.<method>()] for one of [stop], [pause], [resume]. *)
Definition worker_call (c : Command) (s : DownloadWorker) (win : MainWindow)
    : option MainWindow :=
  let (s', evs) := call c s in
  deliver_now evs (set_worker (Some s') win).

Definition pause_download (win : MainWindow) : option MainWindow :=
  match worker win with
  | Some s =>
      win ← worker_call Pause s win;
      Some (status_append "⏸️ 用户请求暂停下载..." win)
  | None => Some win
  end.

Definition resume_download (win : MainWindow) : option MainWindow :=
  match worker win with
  | Some s =>
      win ← worker_call Resume s win;
      Some (status_append "▶️ 用户请求继续下载..." win)
  | None => Some win
  end.

Definition stop_download (win : MainWindow) : option MainWindow :=
  match worker win with
  | Some s =>
      if running s then
        win ← worker_call Stop s win;
        Some (status_append "🛑 用户请求停止下载..." win)
      else Some win
  | None => Some win
  end.

(** [MainWindow.start_download], the whole method: the checks of
    [start_download] above, then the worker is created and started and the
    buttons are set. *)
Definition start_download_slot (win : MainWindow) : option MainWindow :=
  match start_download (form win) with
  | inl message => Some (message_box message win)
  | inr s =>
      let win := set_worker (Some s) win in
      win ← download_btn_becomes "⏸️ 暂停下载" to_pause_download win;
      let win := set_stop_btn_enabled true win in
      let model_name := model_name_of (repo_id s) in
      Some (status_append
              ("⏳ 开始下载 " +:+ Str.of_Z (Z.of_nat (length (selected_files s)))
               +:+ " 个文件到子目录: " +:+ model_name) win)
  end.

Definition run_slot (slot : Slot) : MainWindow -> option MainWindow :=
  match slot with
  | to_start_download => start_download_slot
  | to_pause_download => pause_download
  | to_resume_download => resume_download
  end.

(** [MainWindow.load_file_list]; [answer] is what
    [HfApi().list_repo_files(repo_id=repo_id)] gives for the repository:
    the files, or the text of the exception it raises. *)
Definition load_file_list (answer : string -> string + list string)
    (win : MainWindow) : MainWindow :=
  let repo_id := Str.strip (repo_input (form win)) in
  if negb (Str.truthy repo_id) then message_box "请输入模型仓库ID！" win
  else
    let win := set_status_text [] win in
    let win := status_append "⏳ 正在加载文件列表..." win in
    match answer repo_id with
    | inr files =>
        let win := set_file_paths files win in
        let win :=
          set_form {| repo_input := repo_input (form win);
                      dir_input := dir_input (form win);
                      file_list_widget := (fun file_path => (file_path, true)) <$> files;
                      speed_checkbox := speed_checkbox (form win);
                      speed_input := speed_input (form win) |} win in
        let count := Str.of_Z (Z.of_nat (length files)) in
        let win := set_file_count_label ("共 " +:+ count +:+ " 个文件") win in
        let win := status_append ("✅ 成功加载 " +:+ count +:+ " 个文件") win in
        download_btn_setEnabled true win
    | inl e =>
        let win := message_box ("加载文件列表失败:" +:+ Str.nl +:+ e) win in
        status_append ("❌ 错误: " +:+ e) win
    end.

(** [MainWindow.on_speed_checkbox_changed] and [MainWindow.browse_directory],
    [folder] being what the dialog returns. *)
Definition on_speed_checkbox_changed (state : Z) (win : MainWindow) : MainWindow :=
  set_speed_input_enabled (Z.eqb state 2) win.

Definition browse_directory (folder : string) (win : MainWindow) : MainWindow :=
  if Str.truthy folder
  then set_form {| repo_input := repo_input (form win);
                   dir_input := folder;
                   file_list_widget := file_list_widget (form win);
                   speed_checkbox := speed_checkbox (form win);
                   speed_input := speed_input (form win) |} win
  else win.

(** ** What happens to the window *)

(** The user edits the form or clicks a button, or a signal that [run]
    emitted in the worker's thread reaches its slot. *)
Inductive Happening :=
| Type_repo (s : string)
| Type_dir (s : string)
| Type_speed (s : string)
| Check_speed (b : bool)
| Check_row (i : nat) (b : bool)
| Browse (folder : string)
| Click_load (answer : string -> string + list string)
| Click_download
| Click_stop
| Worker_progress (percent : Z) (file : string)
| Worker_finished
| Worker_cancelled
| Worker_error (msg : string).

Definition edit (f : Form -> Form) (win : MainWindow) : MainWindow :=
  set_form (f (form win)) win.

Definition with_repo (s : string) (f : Form) : Form :=
  {| repo_input := s; dir_input := dir_input f;
     file_list_widget := file_list_widget f;
     speed_checkbox := speed_checkbox f; speed_input := speed_input f |}.

Definition with_dir (s : string) (f : Form) : Form :=
  {| repo_input := repo_input f; dir_input := s;
     file_list_widget := file_list_widget f;
     speed_checkbox := speed_checkbox f; speed_input := speed_input f |}.

Definition with_speed (s : string) (f : Form) : Form :=
  {| repo_input := repo_input f; dir_input := dir_input f;
     file_list_widget := file_list_widget f;
     speed_checkbox := speed_checkbox f; speed_input := s |}.

Definition with_speed_checked (b : bool) (f : Form) : Form :=
  {| repo_input := repo_input f; dir_input := dir_input f;
     file_list_widget := file_list_widget f;
     speed_checkbox := b; speed_input := speed_input f |}.

Definition with_row_checked (i : nat) (b : bool) (f : Form) : Form :=
  {| repo_input := repo_input f; dir_input := dir_input f;
     file_list_widget :=
       alter (fun row => (fst row, b)) i (file_list_widget f);
     speed_checkbox := speed_checkbox f; speed_input := speed_input f |}.

(** A click runs the slots connected to the button, if it is enabled. *)
Fixpoint run_slots (slots : list Slot) (win : MainWindow) : option MainWindow :=
  match slots with
  | [] => Some win
  | slot :: rest => run_slot slot win ≫= run_slots rest
  end.

Definition happen (h : Happening) (win : MainWindow) : option MainWindow :=
  match h with
  | Type_repo s => Some (edit (with_repo s) win)
  | Type_dir s => Some (edit (with_dir s) win)
  | Type_speed s => Some (edit (with_speed s) win)
  | Check_speed b =>
      Some (on_speed_checkbox_changed (if b then 2 else 0)
              (edit (with_speed_checked b) win))
  | Check_row i b => Some (edit (with_row_checked i b) win)
  | Browse folder => Some (browse_directory folder win)
  | Click_load answer => Some (load_file_list answer win)
  | Click_download =>
      if enabled (download_btn win)
      then run_slots (clicked (download_btn win)) win
      else Some win
  | Click_stop => if stop_btn_enabled win then stop_download win else Some win
  | Worker_progress percent file => update_progress percent file win
  | Worker_finished => download_finished win
  | Worker_cancelled => download_cancelled win
  | Worker_error msg => download_error msg win
  end.

Fixpoint happen_all (hs : list Happening) (win : MainWindow) : option MainWindow :=
  match hs with
  | [] => Some win
  | h :: rest => happen h win ≫= happen_all rest
  end.

(** What the methods keep true of the buttons: one slot is connected to
    the download button; it is [pause_download] or [resume_download], or the
    stop button is enabled, only when there is a worker. *)
Definition buttons_ok (win : MainWindow) : Prop :=
  exists slot,
    clicked (download_btn win) = [slot] /\
    (slot <> to_start_download -> worker win <> None) /\
    (stop_btn_enabled win = true -> worker win <> None).

Lemma happen_keeps_buttons_ok h win :
  buttons_ok win -> exists win', happen h win = Some win' /\ buttons_ok win'.
Proof.
  intros (slot & Hc & Hw & Hs).
  destruct win as [f se lbl bar st [t e c] sb fp w bx]. simpl in *. subst c.
  destruct h; simpl;
    try (eexists; split; [reflexivity|]; exists slot; simpl; by auto).
  - (* browse *)
    unfold browse_directory. destruct (Str.truthy folder);
      (eexists; split; [reflexivity|]; exists slot; simpl; by auto).
  - (* load *)
    unfold load_file_list. simpl. destruct (negb _);
      [eexists; split; [reflexivity|]; exists slot; simpl; by auto|].
    destruct (answer _);
      (eexists; split; [reflexivity|]; exists slot; simpl; by auto).
  - (* the download button *)
    destruct e; [|eexists; split; [reflexivity|]; exists slot; simpl; by auto].
    simpl. destruct slot; simpl.
    + unfold start_download_slot. simpl. destruct (start_download f) as [m|s]; simpl.
      * eexists; split; [reflexivity|]. exists to_start_download; simpl; by auto.
      * eexists; split; [reflexivity|]. exists to_pause_download; simpl. by auto.
    + destruct w as [s|]; [|by destruct Hw]. unfold pause_download. simpl.
      unfold worker_call. simpl. unfold pause.
      destruct (running s && negb (is_paused s)); simpl;
        (eexists; split; [reflexivity|]; eexists; simpl; by auto).
    + destruct w as [s|]; [|by destruct Hw]. unfold resume_download. simpl.
      unfold worker_call. simpl. unfold resume.
      destruct (running s && is_paused s); simpl;
        (eexists; split; [reflexivity|]; eexists; simpl; by auto).
  - (* the stop button *)
    destruct sb; [|eexists; split; [reflexivity|]; exists slot; simpl; by auto].
    unfold stop_download. simpl. destruct w as [s|]; [|by destruct Hs].
    destruct (running s); simpl;
      (eexists; split; [reflexivity|]; exists slot; simpl; by auto).
  - (* progress *)
    unfold update_progress, progress_bar_setValue. simpl.
    destruct (_ && _); (eexists; split; [reflexivity|]; exists slot; simpl; by auto).
  - eexists; split; [reflexivity|]. exists to_start_download; simpl. by auto.
  - eexists; split; [reflexivity|]. exists to_start_download; simpl. by auto.
  - eexists; split; [reflexivity|]. exists to_start_download; simpl. by auto.
Qed.

Lemma buttons_ok_new_window : buttons_ok new_window.
Proof. exists to_start_download. by simpl. Qed.

(** No method of the window ever raises on a button: whatever the user
    types and clicks and whatever signals the worker sends, in any order,
    starting from the new window, [clicked.disconnect()] always finds a slot
    to disconnect, exactly one slot is connected to the download button
    afterwards, and the slots that call the worker, [pause_download],
    [resume_download] and the stop button, are reachable only when a worker
    exists. *)
Theorem the_buttons_never_fail (hs : list Happening) :
  exists win slot,
    happen_all hs new_window = Some win /\
    clicked (download_btn win) = [slot] /\
    (slot <> to_start_download -> worker win <> None) /\
    (stop_btn_enabled win = true -> worker win <> None).
Proof.
  assert (H : forall win, buttons_ok win ->
            exists win', happen_all hs win = Some win' /\ buttons_ok win').
  { induction hs as [|h hs IH]; intros win Hok; simpl; [eauto|].
    destruct (happen_keeps_buttons_ok h win Hok) as (win1 & -> & Hok1). simpl.
    by apply IH. }
  destruct (H new_window buttons_ok_new_window) as (win & Hh & slot & Hc & Hw & Hs).
  by exists win, slot.
Qed.

(** A second click on the stop button changes nothing: [stop_download]
    looks at [running] before it calls [stop()] and writes to the log.  It
    never fails, and afterwards the worker, if there is one, is stopped. *)
Theorem a_second_stop_does_nothing (win : MainWindow) :
  exists win',
    stop_download win = Some win' /\
    stop_download win' = Some win' /\
    (forall s, worker win' = Some s -> running s = false) /\
    (forall s, worker win = Some s -> running s = true ->
       status_text win' = status_text win ++ ["🛑 用户请求停止下载..."] /\
       worker win' = Some (fst (stop s))).
Proof.
  unfold stop_download. destruct (worker win) as [s|] eqn:Hw.
  - destruct (running s) eqn:R.
    + unfold worker_call. simpl. eexists. split; [reflexivity|]. simpl.
      split; [done|]. split; [by intros ? [= <-]|]. by intros ? [= <-] _.
    + exists win. rewrite Hw, R. split; [done|]. split; [done|].
      split; [intros ? [= <-]; done|]. intros ? [= <-]. congruence.
  - exists win. rewrite Hw. by repeat split.
Qed.

(** A click on "pause" and then a click on the same button, now "resume":
    the two signals reach their slots inside the two calls, so the button
    changes at once, and after the second click the worker and the button
    are as they were; the log has gained four lines, each "done" line before
    its "requested" line. *)
Theorem pause_click_then_resume_click (win : MainWindow) (s : DownloadWorker) :
  worker win = Some s ->
  running s = true -> is_paused s = false -> pause_requested s = true ->
  download_btn win =
    {| text := "⏸️ 暂停下载"; enabled := true; clicked := [to_pause_download] |} ->
  exists paused,
    happen Click_download win = Some paused /\
    download_btn paused =
      {| text := "▶️ 继续下载"; enabled := true; clicked := [to_resume_download] |} /\
    worker paused = Some (fst (pause s)) /\
    happen Click_download paused =
      Some (set_status_text
              (status_text win ++
               ["⏸️ 下载已暂停。"; "⏸️ 用户请求暂停下载...";
                "▶️ 下载已继续。"; "▶️ 用户请求继续下载..."]) win).
Proof.
  intros Hw R P G Hb.
  destruct win as [f se lbl bar st b sb fp w bx]. simpl in *. subst w b.
  destruct s as [q d fl l r p g c]. simpl in *. subst r p g.
  eexists. split; [reflexivity|]. split; [reflexivity|]. split; [reflexivity|].
  replace (st ++ ["⏸️ 下载已暂停。"; "⏸️ 用户请求暂停下载...";
                  "▶️ 下载已继续。"; "▶️ 用户请求继续下载..."])
    with ((((st ++ ["⏸️ 下载已暂停。"]) ++ ["⏸️ 用户请求暂停下载..."])
             ++ ["▶️ 下载已继续。"]) ++ ["▶️ 用户请求继续下载..."])
    by (by rewrite <- !app_assoc).
  vm_compute. reflexivity.
Qed.

Lemma pause_click_then_resume_click_witness :
  let s := init "org/model" "/out" ["config.json"] None in
  let win :=
    set_download_btn
      {| text := "⏸️ 暂停下载"; enabled := true; clicked := [to_pause_download] |}
      (set_worker (Some s) new_window) in
  exists paused,
    happen Click_download win = Some paused /\
    download_btn paused =
      {| text := "▶️ 继续下载"; enabled := true; clicked := [to_resume_download] |} /\
    worker paused = Some (fst (pause s)) /\
    happen Click_download paused =
      Some (set_status_text
              (status_text win ++
               ["⏸️ 下载已暂停。"; "⏸️ 用户请求暂停下载...";
                "▶️ 下载已继续。"; "▶️ 用户请求继续下载..."]) win).
Proof.
  intros s win.
  apply (pause_click_then_resume_click win s); reflexivity.
Defined.




(** What the window shows when the three files of a repository are loaded,
    one is unchecked and the download is started with a speed limit. *)
Example a_session_is_started :
  let answer := fun _ : string => inr ["a.bin"; "b.bin"; "c.bin"] in
  match happen_all
          [Type_repo "org/model"; Click_load answer; Check_row 1 false;
           Check_speed true; Type_speed " 2m "; Click_download] new_window with
  | Some win =>
      worker win = Some (init "org/model" "./downloaded_model" ["a.bin"; "c.bin"]
                           (Some "2m")) /\
      text (download_btn win) = "⏸️ 暂停下载" /\
      clicked (download_btn win) = [to_pause_download] /\
      stop_btn_enabled win = true /\
      file_count_label win = "共 3 个文件" /\
      status_text win =
        ["⏳ 正在加载文件列表..."; "✅ 成功加载 3 个文件";
         "⏳ 开始下载 2 个文件到子目录: model"]
  | None => False
  end.
Proof. by vm_compute. Qed.
